(** * FilterObjects: selection strategies and relabeling

    A shallow embedding of the filtering core of
    [pyCellProfiler/cellprofiler/modules/filterobjects.py]
    ([FilterObjects.run], [keep_one], [keep_per_object],
    [keep_within_limits], [keep_by_rules]) together with the handful of
    numpy operations these methods are written with, and the properties of
    the selection and relabeling steps proved over it.

    Label rasters are 2-D integer arrays, embedded as [list (list Z)];
    measurement vectors are arrays of float64, embedded as lists of
    [float64] (below); Python exceptions are explicit [Err] results. *)

From Stdlib Require Import ZArith QArith Lia Lqa String Sorted.
From stdpp Require Import base option list sorting pretty.

Local Open Scope string_scope.
Local Open Scope Z_scope.

(** ** float64 values, as far as comparisons see them

    The module only ever compares measurement values ([<], [>]) and tests
    them with [np.isnan].  IEEE comparison of two finite doubles is the order
    of the rationals they denote, so a finite value is carried as that
    rational; the two infinities and not-a-number are separate
    constructors.  Every comparison with [NaN] is false. *)

Inductive float64 : Type :=
| NaN
| NegInf
| Fin (q : Q)
| PosInf.

(** [x < y] on float64. *)
Definition flt (x y : float64) : bool :=
  match x, y with
  | NaN, _ | _, NaN => false
  | NegInf, NegInf => false
  | NegInf, _ => true
  | Fin _, NegInf => false
  | Fin p, Fin q => negb (Qle_bool q p)
  | Fin _, PosInf => true
  | PosInf, _ => false
  end.

(** [x <= y] on float64. *)
Definition fle (x y : float64) : bool :=
  match x, y with
  | NaN, _ | _, NaN => false
  | NegInf, _ => true
  | Fin _, NegInf => false
  | Fin p, Fin q => Qle_bool p q
  | Fin _, PosInf => true
  | PosInf, PosInf => true
  | PosInf, _ => false
  end.

Definition fgt (x y : float64) : bool := flt y x.
Definition fge (x y : float64) : bool := fle y x.

(** [np.isnan] *)
Definition isnan (x : float64) : bool :=
  match x with NaN => true | _ => false end.

(** ** Python exceptions as results *)

Inductive exn : Type :=
| IndexError   (* index out of bounds, too many indices *)
| ValueError.  (* empty reduction, negative dimension, shape mismatch *)

Inductive result (A : Type) : Type :=
| Ok (a : A)
| Err (e : exn).
Arguments Ok {A} a.
Arguments Err {A} e.

#[global] Instance result_ret : MRet result := fun A a => Ok a.
#[global] Instance result_bind : MBind result := fun A B f r =>
  match r with
  | Ok a => f a
  | Err e => Err e
  end.

(** ** The numpy operations the module uses *)

Module np.

(** A 1-D integer index [i] into an array of length [len]: numpy counts a
    negative index from the end and raises [IndexError] outside
    [-len .. len-1]. *)
Definition norm_index (len : nat) (i : Z) : result nat :=
  if (0 <=? i) && (i <? Z.of_nat len) then Ok (Z.to_nat i)
  else if (- Z.of_nat len <=? i) && (i <? 0) then Ok (Z.to_nat (Z.of_nat len + i))
  else Err IndexError.

(** [a[i]] for an integer [i]. *)
Definition index {A} (a : list A) (i : Z) : result A :=
  n ← norm_index (length a) i;
  match a !! n with
  | Some x => Ok x
  | None => Err IndexError
  end.

(** [a[idx]] for an integer array [idx] (here a raster of labels): the
    result has the shape of [idx]; one bad index fails the whole
    expression. *)
Definition take {A} (a : list A) (idx : list (list Z)) : result (list (list A)) :=
  mapM (mapM (index a)) idx.

(** [np.max] of a 2-D array; the reduction of an empty array raises
    [ValueError]. *)
Definition max (a : list (list Z)) : result Z :=
  match mjoin a with
  | [] => Err ValueError
  | x :: xs => Ok (foldl Z.max x xs)
  end.

(** [np.zeros((n,), int)]; a negative dimension raises [ValueError]. *)
Definition zeros (n : Z) : result (list Z) :=
  if n <? 0 then Err ValueError else Ok (replicate (Z.to_nat n) 0).

(** [np.arange(lo, hi)] *)
Definition arange (lo hi : Z) : list Z := seqZ lo (hi - lo).

(** [a[idx] = vals] for an integer index array [idx] and a value array of
    the same length: the writes happen in order, so a repeated index keeps
    the last value. *)
Fixpoint put (a : list Z) (idx vals : list Z) : result (list Z) :=
  match idx, vals with
  | [], [] => Ok a
  | i :: idx', v :: vals' =>
      n ← norm_index (length a) i;
      put (<[n := v]> a) idx' vals'
  | _, _ => Err ValueError
  end.

(** [np.ones(n, bool)] *)
Definition ones (n : nat) : list bool := replicate n true.

(** [a[mask] = False] for a boolean [mask].  numpy wants the mask to have
    the length of the array it indexes and raises [IndexError] ("boolean
    index did not match indexed array") otherwise, whatever the mask holds;
    with matching lengths the entries under a [True] are cleared. *)
Definition clear (a mask : list bool) : result (list bool) :=
  if (length mask =? length a)%nat
  then Ok (zip_with (fun (x b : bool) => if b then false else x) a mask)
  else Err IndexError.

(** [np.argwhere(hits)[:,0]]: the 0-based positions of the [True]
    entries, ascending. *)
Fixpoint argwhere_from (k : Z) (hits : list bool) : list Z :=
  match hits with
  | [] => []
  | b :: hits' =>
      if b then k :: argwhere_from (k + 1) hits'
      else argwhere_from (k + 1) hits'
  end.
Definition argwhere (hits : list bool) : list Z := argwhere_from 0 hits.

(** The scan shared by [np.argmax] and [np.argmin] (numpy's [DOUBLE_argmax]
    and [DOUBLE_argmin]), with [ip <= mp] resp. [ip >= mp] for [le]: the
    running extremum [mp] found at [best] is replaced by the element at [k]
    when [!(ip le mp)]; a NaN, once met, is the extremum and ends the scan. *)
Fixpoint argext_from (le : float64 -> float64 -> bool)
    (mp : float64) (best : nat) (k : nat) (ip : list float64) : nat :=
  match ip with
  | [] => best
  | x :: ip' =>
      if negb (le x mp) then
        if isnan x then k else argext_from le x k (S k) ip'
      else argext_from le mp best (S k) ip'
  end.

Definition argext (le : float64 -> float64 -> bool) (v : list float64) : result Z :=
  match v with
  | [] => Err ValueError
  | x :: xs => Ok (Z.of_nat (if isnan x then 0%nat else argext_from le x 0 1 xs))
  end.

(** [np.argmax]: the first position holding the maximum. *)
Definition argmax (v : list float64) : result Z := argext fle v.

(** [np.argmin]: the first position holding the minimum. *)
Definition argmin (v : list float64) : result Z := argext fge v.

End np.

(** ** Settings and workspace *)

Abbreviation raster := (list (list Z)).

Inductive rules_or_measurement_choice : Type :=
| ROM_RULES
| ROM_MEASUREMENTS.

Inductive filter_choice_t : Type :=
| FI_MINIMAL
| FI_MAXIMAL
| FI_MINIMAL_PER_OBJECT
| FI_MAXIMAL_PER_OBJECT
| FI_LIMITS.

(** One entry of [self.measurements]. *)
Record measurement_group : Type := {
  measurement : string;
  wants_minimum : bool;
  min_limit : float64;
  wants_maximum : bool;
  max_limit : float64
}.

(** One entry of [self.additional_objects]. *)
Record additional_object : Type := {
  ao_object_name : string;
  ao_target_name : string
}.

Record FilterObjects : Type := {
  target_name : string;
  object_name : string;
  rules_or_measurement : rules_or_measurement_choice;
  filter_choice : filter_choice_t;
  enclosing_object_name : string;
  measurements : list measurement_group;
  additional_objects : list additional_object
}.

(** What [run] reads from the workspace: the [segmented] raster of a named
    object set, the current measurement vector of an object set, and the
    score matrix the rules file gives for the current measurements
    ([self.get_rules().score(workspace.measurements)], one
    (positive, negative) row per object). *)
Record workspace : Type := {
  get_objects : string -> raster;
  get_current_measurement : string -> string -> list float64;
  rules_score : list (float64 * float64)
}.

(** What [run] stores for one object set: the relabeled raster under the
    target name and the [Parent_<src>] measurement. *)
Record filtered_objects : Type := {
  fo_name : string;
  fo_segmented : raster;
  fo_parent : list Z
}.

(** [raster[r, c]] for non-negative [r], [c]. *)
Definition pixel {A} (a : list (list A)) (r c : nat) : result A :=
  match a !! r with
  | Some row => match row !! c with
                | Some v => Ok v
                | None => Err IndexError
                end
  | None => Err IndexError
  end.

(** [self.measurements[0]] *)
Definition first_group (self : FilterObjects) : result measurement_group :=
  match measurements self with
  | g :: _ => Ok g
  | [] => Err IndexError
  end.

Section FilterObjects.

(** [scipy.ndimage.maximum_position] and [minimum_position]: given the
    per-pixel values, the enclosing labels and the labels asked for, one
    (row, column) per label asked for.  They are outside this module and
    stay abstract. *)
Variables maximum_position minimum_position :
  list (list float64) -> raster -> list Z -> list (nat * nat).

(** *** keep_one *)
Definition keep_one (self : FilterObjects) (ws : workspace) : result (list Z) :=
  g ← first_group self;
  let values := get_current_measurement ws (object_name self) (measurement g) in
  if (length values =? 0)%nat then Ok []
  else
    best ← match filter_choice self with
           | FI_MAXIMAL => np.argmax values
           | _ => np.argmin values
           end;
    Ok [best + 1].

(** *** keep_per_object *)

(** [wants_max = self.filter_choice == FI_MAXIMAL_PER_OBJECT] *)
Definition wants_max (self : FilterObjects) : bool :=
  match filter_choice self with FI_MAXIMAL_PER_OBJECT => true | _ => false end.

(** The measurement values shifted to slots 1.., with the value that can
    never win in slot 0: minus infinity when looking for the maximum, plus
    infinity otherwise. *)
Definition tricky_values (self : FilterObjects) (values : list float64) : list float64 :=
  (if wants_max self then NegInf else PosInf) :: values.

(** The measurement value of the object at each pixel
    ([tricky_values[src_labels]]). *)
Definition src_values (self : FilterObjects) (ws : workspace)
    (g : measurement_group) : result (list (list float64)) :=
  let values := get_current_measurement ws (object_name self) (measurement g) in
  np.take (tricky_values self values) (get_objects ws (object_name self)).

(** [indexes[1:] if len(indexes)>0 and indexes[0] == 0 else indexes] *)
Definition drop_background (indexes : list Z) : list Z :=
  match indexes with
  | 0 :: rest => rest
  | _ => indexes
  end.

Definition keep_per_object (self : FilterObjects) (ws : workspace) : result (list Z) :=
  g ← first_group self;
  let src_labels := get_objects ws (object_name self) in
  let enclosing_labels := get_objects ws (enclosing_object_name self) in
  enclosing_max ← np.max enclosing_labels;
  if enclosing_max =? 0 then Ok []
  else
    let enclosing_range := np.arange 1 (enclosing_max + 1) in
    sv ← src_values self ws g;
    let fn := if wants_max self then maximum_position else minimum_position in
    let best_pos := fn sv enclosing_labels enclosing_range in
    (* an empty [best_pos] is a 1-D array: [best_pos[:,0]] has too many indices *)
    if (length best_pos =? 0)%nat then Err IndexError
    else
      indexes ← mapM (fun p => pixel src_labels p.1 p.2) best_pos;
      let indexes := merge_sort Z.le (remove_dups indexes) in
      Ok (drop_background indexes).

(** *** keep_within_limits *)

(** One turn of the loop over [self.measurements]. *)
Definition limits_step (ws : workspace) (src_name : string)
    (hits : option (list bool)) (group : measurement_group) : result (list bool) :=
  let values := get_current_measurement ws src_name (measurement group) in
  hits ← match hits with
         | None => Ok (np.ones (length values))
         | Some hits =>
             if (length hits <? length values)%nat
             then
               (* [temp[~ hits] = False]: [~ hits] still has the old length *)
               np.clear (np.ones (length values)) (negb <$> hits)
             else Ok hits
         end;
  let low_limit := min_limit group in
  let high_limit := max_limit group in
  hits ← (if wants_minimum group
          then np.clear hits ((fun v => flt v low_limit) <$> values)
          else Ok hits);
  if wants_maximum group
  then np.clear hits ((fun v => fgt v high_limit) <$> values)
  else Ok hits.

Fixpoint limits_loop (ws : workspace) (src_name : string)
    (hits : option (list bool)) (groups : list measurement_group)
    : result (option (list bool)) :=
  match groups with
  | [] => Ok hits
  | group :: groups' =>
      hits' ← limits_step ws src_name hits group;
      limits_loop ws src_name (Some hits') groups'
  end.

Definition keep_within_limits (self : FilterObjects) (ws : workspace) : result (list Z) :=
  hits ← limits_loop ws (object_name self) None (measurements self);
  match hits with
  | None =>
      (* no group at all: [np.argwhere(None)] has no column for [[:,0]] *)
      Err IndexError
  | Some hits =>
      let indexes := np.argwhere hits in
      Ok ((fun i => i + 1) <$> indexes)
  end.

(** *** keep_by_rules *)

(** [scores[np.isnan(scores[:,0]),0] = -np.Infinity] and
    [scores[np.isnan(scores[:,1]),1] = np.Infinity], row by row. *)
Definition coerce_scores (row : float64 * float64) : float64 * float64 :=
  (if isnan row.1 then NegInf else row.1,
   if isnan row.2 then PosInf else row.2).

Definition keep_by_rules (ws : workspace) : result (list Z) :=
  let scores := coerce_scores <$> rules_score ws in
  let hits := (fun row => fgt row.1 row.2) <$> scores in
  Ok ((fun i => i + 1) <$> np.argwhere hits).

(** *** run *)

Definition select (self : FilterObjects) (ws : workspace) : result (list Z) :=
  match rules_or_measurement self, filter_choice self with
  | ROM_RULES, _ => keep_by_rules ws
  | _, (FI_MINIMAL | FI_MAXIMAL) => keep_one self ws
  | _, (FI_MINIMAL_PER_OBJECT | FI_MAXIMAL_PER_OBJECT) => keep_per_object self ws
  | _, FI_LIMITS => keep_within_limits self ws
  end.

(** The array that maps label indexes to their new values:
    [label_indexes = np.zeros((max_label+1,), int)] and
    [label_indexes[indexes] = np.arange(1, new_object_count+1)]. *)
Definition make_label_indexes (max_label : Z) (indexes : list Z) : result (list Z) :=
  let new_object_count := Z.of_nat (length indexes) in
  label_indexes ← np.zeros (max_label + 1);
  np.put label_indexes indexes (np.arange 1 (new_object_count + 1)).

(** [target_labels[target_labels > max_label] = 0] *)
Definition zero_above (max_label : Z) (labels : raster) : raster :=
  (fun row : list Z => (fun v => if max_label <? v then 0 else v) <$> row) <$> labels.

(** Reindex the labels of one source raster. *)
Definition reindex (label_indexes : list Z) (max_label : Z) (segmented : raster)
    : result raster :=
  let target_labels := zero_above max_label segmented in
  np.take label_indexes target_labels.

(** The primary and the additional objects: (source name, target name). *)
Definition object_list (self : FilterObjects) : list (string * string) :=
  (object_name self, target_name self) ::
  ((fun x => (ao_object_name x, ao_target_name x)) <$> additional_objects self).

(** The body of the loop over [object_list]. *)
Definition relabel_one (ws : workspace) (label_indexes : list Z) (max_label : Z)
    (indexes : list Z) (names : string * string) : result filtered_objects :=
  target_labels ← reindex label_indexes max_label (get_objects ws names.1);
  Ok {| fo_name := names.2;
        fo_segmented := target_labels;
        fo_parent := indexes |}.

(** The part of [run] after the strategy has chosen [indexes]. *)
Definition relabel (self : FilterObjects) (ws : workspace) (indexes : list Z)
    : result (list filtered_objects) :=
  max_label ← np.max (get_objects ws (object_name self));
  label_indexes ← make_label_indexes max_label indexes;
  mapM (relabel_one ws label_indexes max_label indexes) (object_list self).

Definition run (self : FilterObjects) (ws : workspace) : result (list filtered_objects) :=
  indexes ← select self ws;
  relabel self ws indexes.

End FilterObjects.

(** ** validate_module *)

(** The setting a [cps.ValidationError] points at. *)
Inductive validated_setting : Type :=
| WantsMinimumOf (group : measurement_group)
| RulesFileName.

(** What [validate_module] does: return, or raise [cps.ValidationError]
    with a message and the offending setting. *)
Inductive validation : Type :=
| Valid
| ValidationError (message : string) (setting : validated_setting).

(** The loop over [self.measurements]: the first group with neither limit
    raises. *)
Fixpoint validate_limits (groups : list measurement_group) : validation :=
  match groups with
  | [] => Valid
  | group :: groups' =>
      if negb (wants_minimum group) && negb (wants_maximum group)
      then ValidationError
             "Please enter a minimum and/or maximum limit for your measurement"
             (WantsMinimumOf group)
      else validate_limits groups'
  end.

(** [get_rules] reads and parses the rules file; [rules_failure] is [None]
    when it returns and [Some (str instance)] when it raises. *)
Definition validate_module (rules_failure : option string) (self : FilterObjects)
    : validation :=
  match (match rules_or_measurement self, filter_choice self with
         | ROM_MEASUREMENTS, FI_LIMITS => validate_limits (measurements self)
         | _, _ => Valid
         end) with
  | ValidationError message setting => ValidationError message setting
  | Valid =>
      match rules_or_measurement self with
      | ROM_RULES =>
          match rules_failure with
          | Some message => ValidationError message RulesFileName
          | None => Valid
          end
      | ROM_MEASUREMENTS => Valid
      end
  end.

(** ** Measurement names: get_measurement_columns, get_categories,
    get_measurements *)

(** [FF_PARENT % src_name] *)
Definition FF_PARENT (src_name : string) : string := String.append "Parent_" src_name.

Section measurement_names.

(** [cpmeas.IMAGE], [cpmeas.COLTYPE_INTEGER] and
    [identify.get_object_measurement_columns] are defined outside this
    module. *)
Variable IMAGE : string.
Variable COLTYPE_INTEGER : string.
Variable get_object_measurement_columns : string -> list (string * string * string).

Definition get_measurement_columns (self : FilterObjects)
    : list (string * string * string) :=
  mjoin ((fun names : string * string =>
            (names.2, FF_PARENT names.1, COLTYPE_INTEGER) ::
            get_object_measurement_columns names.2)
         <$> object_list self).

(** A setting compares equal to a string when its value does, so
    [object_name == self.object_name] is a comparison of names. *)
Definition get_categories (self : FilterObjects) (name : string) : list string :=
  let categories :=
    if String.eqb name IMAGE then ["Count"]
    else if String.eqb name (object_name self) then ["Children"]
    else [] in
  if String.eqb name (target_name self)
  then (categories ++ ["Parent"; "Location"; "Number"])%list
  else categories.

Definition get_measurements (self : FilterObjects) (name category : string)
    : list string :=
  let result1 :=
    if String.eqb name IMAGE && String.eqb category "Count"
    then [target_name self] else [] in
  let result2 :=
    if String.eqb name (object_name self) && String.eqb category "Children"
    then (result1 ++ [String.append (target_name self) "_Count"])%list else result1 in
  if String.eqb name (target_name self) then
    if String.eqb category "Location" then (result2 ++ ["Center_X"; "Center_Y"])%list
    else if String.eqb category "Parent" then (result2 ++ [object_name self])%list
    else if String.eqb category "Number" then (result2 ++ ["Object_Number"])%list
    else result2
  else result2.

End measurement_names.

(** ** upgrade_settings *)

(** The texts of the choices, as saved in a pipeline. *)
Definition filter_choice_text (choice : filter_choice_t) : string :=
  match choice with
  | FI_MINIMAL => "Minimal"
  | FI_MAXIMAL => "Maximal"
  | FI_MINIMAL_PER_OBJECT => "Minimal per object"
  | FI_MAXIMAL_PER_OBJECT => "Maximal per object"
  | FI_LIMITS => "Limits"
  end.

Definition rules_or_measurement_text (choice : rules_or_measurement_choice) : string :=
  match choice with
  | ROM_RULES => "Rules"
  | ROM_MEASUREMENTS => "Measurements"
  end.

Inductive rules_directory_choice_t : Type :=
| DIR_DEFAULT_INPUT
| DIR_DEFAULT_OUTPUT
| DIR_CUSTOM.

Definition rules_directory_text (choice : rules_directory_choice_t) : string :=
  match choice with
  | DIR_DEFAULT_INPUT => "Default input folder"
  | DIR_DEFAULT_OUTPUT => "Default output folder"
  | DIR_CUSTOM => "Custom folder"
  end.

(** The exceptions [upgrade_settings] can end in. *)
Inductive upgrade_exn : Type :=
| UpgradeIndexError       (* [setting_values[i]] past the end *)
| UpgradeValueError       (* unpacking a list of the wrong length *)
| UnboundLocalError.      (* reading a local no branch has assigned *)

Inductive outcome (A : Type) : Type :=
| Returns (a : A)
| Raises (e : upgrade_exn).
Arguments Returns {A} a.
Arguments Raises {A} e.

#[global] Instance outcome_ret : MRet outcome := fun A a => Returns a.
#[global] Instance outcome_bind : MBind outcome := fun A B f r =>
  match r with
  | Returns a => f a
  | Raises e => Raises e
  end.

(** The locals [upgrade_settings] rewrites from one [if] to the next. *)
Record upgrade_state : Type := {
  setting_values : list string;
  variable_revision_number : Z;
  module_name : string;
  from_matlab : bool
}.

(** [setting_values[i]] *)
Definition item (values : list string) (i : nat) : outcome string :=
  match values !! i with
  | Some x => Returns x
  | None => Raises UpgradeIndexError
  end.

Section upgrade_settings.

(** [cps.YES], [cps.NO] and [cps.DO_NOT_USE] come from the settings module. *)
Variables YES NO DO_NOT_USE : string.

(** Matlab's KeepLargestObject, revision 1. *)
Definition upgrade_keep_largest_object (st : upgrade_state) : outcome upgrade_state :=
  if String.eqb (module_name st) "KeepLargestObject" && from_matlab st
     && (variable_revision_number st =? 1)
  then
    s1 ← item (setting_values st) 1;
    s2 ← item (setting_values st) 2;
    s0 ← item (setting_values st) 0;
    Returns {| setting_values :=
                 [s1; s2; "AreaShape_Area";
                  filter_choice_text FI_MAXIMAL_PER_OBJECT;
                  s0; YES; "0"; YES; "1"; NO; "None"];
               variable_revision_number := 1;
               module_name := "FilterObjects";
               from_matlab := false |}
  else Returns st.

(** Matlab's FilterByObjectMeasurement, revision 5: swapped first two. *)
Definition upgrade_matlab_5 (st : upgrade_state) : outcome upgrade_state :=
  if String.eqb (module_name st) "FilterByObjectMeasurement" && from_matlab st
     && (variable_revision_number st =? 5)
  then
    s1 ← item (setting_values st) 1;
    s0 ← item (setting_values st) 0;
    Returns {| setting_values := ([s1; s0] ++ drop 2 (setting_values st))%list;
               variable_revision_number := 6;
               module_name := module_name st;
               from_matlab := from_matlab st |}
  else Returns st.

(** Matlab's FilterByObjectMeasurement, revision 6. *)
Definition upgrade_matlab_6 (st : upgrade_state) : outcome upgrade_state :=
  if String.eqb (module_name st) "FilterByObjectMeasurement" && from_matlab st
     && (variable_revision_number st =? 6)
  then
    let values := setting_values st in
    s2 ← item values 2;
    s3 ← item values 3;
    let measurement := String.concat "_" [s2; s3] in
    s6 ← item values 6;
    let limits_min := if String.eqb s6 "No minimum" then (NO, "0") else (YES, s6) in
    s7 ← item values 7;
    let limits_max := if String.eqb s7 "No maximum" then (NO, "1") else (YES, s7) in
    s8 ← item values 8;
    let outlines := if String.eqb s8 DO_NOT_USE then (NO, "None") else (YES, s8) in
    s0 ← item values 0;
    s1 ← item values 1;
    Returns {| setting_values :=
                 [s0; s1; measurement; filter_choice_text FI_LIMITS; "None";
                  limits_min.1; limits_min.2; limits_max.1; limits_max.2;
                  outlines.1; outlines.2];
               variable_revision_number := 1;
               module_name := "FilterObjects";
               from_matlab := false |}
  else Returns st.

(** Matlab's FilterByObjectMeasurement, revision 7: rules file name and
    rules path name added.  [rules_directory_choice] is assigned only on the
    branch that has a rules file. *)
Definition upgrade_matlab_7 (st : upgrade_state) : outcome upgrade_state :=
  if from_matlab st && String.eqb (module_name st) "FilterByObjectMeasurement"
     && (variable_revision_number st =? 7)
  then
    match setting_values st with
    | [target; object; category; feature; image; scale; min_value1; max_value1;
       save_outlines; rules_file_name; rules_path_name] =>
        let parts :=
          ([category; feature]
           ++ (if (0 <? String.length image)%nat then [image] else [])
           ++ (if (0 <? String.length scale)%nat then [scale] else []))%list in
        let measurement := String.concat "_" parts in
        let '(rules_or_measurements, rules_directory_choice) :=
          if String.eqb rules_file_name DO_NOT_USE
          then (rules_or_measurement_text ROM_MEASUREMENTS, None)
          else (rules_or_measurement_text ROM_RULES,
                Some (if String.eqb rules_path_name "."
                      then rules_directory_text DIR_DEFAULT_OUTPUT
                      else if String.eqb rules_path_name "&"
                      then rules_directory_text DIR_DEFAULT_INPUT
                      else rules_directory_text DIR_CUSTOM)) in
        let limits_min :=
          if String.eqb min_value1 "No minimum" then (NO, "0") else (YES, min_value1) in
        let limits_max :=
          if String.eqb max_value1 "No maximum" then (NO, "1") else (YES, max_value1) in
        let outlines :=
          if String.eqb save_outlines DO_NOT_USE then (NO, "None")
          else (YES, save_outlines) in
        match rules_directory_choice with
        | None => Raises UnboundLocalError
        | Some rules_directory_choice =>
            Returns {| setting_values :=
                         [target; object; measurement; filter_choice_text FI_LIMITS;
                          "None";
                          limits_min.1; limits_min.2; limits_max.1; limits_max.2;
                          outlines.1; outlines.2;
                          rules_or_measurements; rules_directory_choice;
                          rules_path_name; rules_file_name];
                       variable_revision_number := 3;
                       module_name := "FilterObjects";
                       from_matlab := false |}
        end
    | _ => Raises UpgradeValueError
    end
  else Returns st.

(** Revision 1: added CPA rules. *)
Definition upgrade_1 (st : upgrade_state) : outcome upgrade_state :=
  if negb (from_matlab st) && (variable_revision_number st =? 1)
  then
    Returns {| setting_values :=
                 (take 11 (setting_values st)
                  ++ [rules_or_measurement_text ROM_MEASUREMENTS;
                      rules_directory_text DIR_DEFAULT_INPUT; "."]
                  ++ drop 11 (setting_values st))%list;
               variable_revision_number := 2;
               module_name := module_name st;
               from_matlab := from_matlab st |}
  else Returns st.

(** Revision 2: the rules file name. *)
Definition upgrade_2 (st : upgrade_state) : outcome upgrade_state :=
  if negb (from_matlab st) && (variable_revision_number st =? 2)
  then
    Returns {| setting_values :=
                 (take 14 (setting_values st) ++ ["rules.txt"]
                  ++ drop 14 (setting_values st))%list;
               variable_revision_number := 3;
               module_name := module_name st;
               from_matlab := from_matlab st |}
  else Returns st.

(** Revision 3: multiple measurements. *)
Definition upgrade_3 (st : upgrade_state) : outcome upgrade_state :=
  if negb (from_matlab st) && (variable_revision_number st =? 3)
  then
    match take 15 (setting_values st) with
    | [target; object; measurement; choice; enclosing_objects;
       wants_min; minimum_value; wants_max; maximum_value;
       wants_outlines; outlines_name; rules_or_measurements;
       rules_directory_choice; rules_path_name; rules_file_name] =>
        let additional_object_settings := drop 15 (setting_values st) in
        let additional_object_count := (length additional_object_settings / 4)%nat in
        Returns {| setting_values :=
                     ([target; object; rules_or_measurements; choice;
                       enclosing_objects; wants_outlines; outlines_name;
                       rules_directory_choice; rules_path_name; rules_file_name;
                       "1"; pretty additional_object_count;
                       measurement; wants_min; minimum_value;
                       wants_max; maximum_value]
                      ++ additional_object_settings)%list;
                   variable_revision_number := 4;
                   module_name := module_name st;
                   from_matlab := from_matlab st |}
    | _ => Raises UpgradeValueError
    end
  else Returns st.

Definition upgrade_settings (values : list string) (revision : Z)
    (name : string) (matlab : bool) : outcome (list string * Z * bool) :=
  st ← upgrade_keep_largest_object
         {| setting_values := values; variable_revision_number := revision;
            module_name := name; from_matlab := matlab |};
  st ← upgrade_matlab_5 st;
  st ← upgrade_matlab_6 st;
  st ← upgrade_matlab_7 st;
  st ← upgrade_1 st;
  st ← upgrade_2 st;
  st ← upgrade_3 st;
  Returns (setting_values st, variable_revision_number st, from_matlab st).

End upgrade_settings.

(** ** Vocabulary of the statements *)

(** The shape of a 2-D array: the length of each of its rows. *)
Definition shape {A} (a : list (list A)) : list nat := length <$> a.

(** The slot of an array of length [len] that the integer index [i]
    designates (meaningful for [-len <= i < len]). *)
Definition wrap (len : nat) (i : Z) : nat :=
  if 0 <=? i then Z.to_nat i else Z.to_nat (Z.of_nat len + i).

(** A function applied to every element of a 2-D array. *)
Definition map2d {A B} (f : A -> B) (a : list (list A)) : list (list B) :=
  (fun row : list A => f <$> row) <$> a.

(** The integer indexes numpy accepts for an array of length [len]. *)
Definition in_range (len : nat) (i : Z) : Prop :=
  - Z.of_nat len <= i < Z.of_nat len.

(** [a[i]] when [i] is in range, [d] otherwise. *)
Definition get {A} (d : A) (a : list A) (i : Z) : A :=
  default d (a !! wrap (length a) i).

(** The value [reindex] gives a pixel that held [v], when it gives one. *)
Definition relabeled (label_indexes : list Z) (max_label : Z) (v : Z) : Z :=
  get 0 label_indexes (if max_label <? v then 0 else v).

(** The names of the object sets [run] relabels: the filtered one, then the
    additional ones. *)
Definition object_names (self : FilterObjects) : list string :=
  fst <$> object_list self.

(** The distinct non-zero labels of a raster. *)
Definition distinct_labels (a : raster) : list Z :=
  remove_dups (filter (fun v => v <> 0) (mjoin a)).

(** What the two masked assignments of one turn of the [keep_within_limits]
    loop leave of the hit at 0-based position [i]: a position the group's
    vector does not reach is not touched. *)
Definition passes (ws : workspace) (src_name : string)
    (group : measurement_group) (i : nat) : bool :=
  match get_current_measurement ws src_name (measurement group) !! i with
  | None => true
  | Some v =>
      negb (wants_minimum group && flt v (min_limit group)) &&
      negb (wants_maximum group && fgt v (max_limit group))
  end.

(** A group whose turn of the [keep_within_limits] loop applies no mask of
    the wrong length to hits of length [n]: its vector has [n] values, or
    fewer with both of its bounds switched off. *)
Definition mask_fits (ws : workspace) (src_name : string) (n : nat)
    (group : measurement_group) : Prop :=
  let values := get_current_measurement ws src_name (measurement group) in
  length values = n \/
  (length values <= n)%nat /\ wants_minimum group = false /\ wants_maximum group = false.

(** The length of the longest measurement vector of the groups. *)
Definition longest (ws : workspace) (src_name : string)
    (groups : list measurement_group) : nat :=
  foldr (fun group n =>
           Nat.max (length (get_current_measurement ws src_name (measurement group))) n)
        0%nat groups.

(** Where the scan of [argmax]/[argmin], started with the extremum so far at
    [best] and [n] elements left from position [k] on, can end. *)
Definition argext_from_result_in_range (best k n result : nat) : Prop :=
  result = best \/ (k <= result < k + n)%nat.

(** What can still be pending in [upgrade_settings] once [done] of its seven
    [if]s are behind: a Matlab pipeline one of the later [if]s reads, or
    settings of this module at a revision the later [if]s bring to 4. *)
Definition upgrade_pending (done : nat) (st : upgrade_state) : Prop :=
  let v := variable_revision_number st in
  let matlab_range (lo : Z) :=
    from_matlab st = true /\
    module_name st = "FilterByObjectMeasurement" /\ lo <= v <= 7 in
  match done with
  | 0%nat =>
      (from_matlab st = true /\ module_name st = "KeepLargestObject" /\ v = 1) \/
      matlab_range 5 \/ (from_matlab st = false /\ 1 <= v <= 4)
  | 1%nat => matlab_range 5 \/ (from_matlab st = false /\ 1 <= v <= 4)
  | 2%nat => matlab_range 6 \/ (from_matlab st = false /\ 1 <= v <= 4)
  | 3%nat => matlab_range 7 \/ (from_matlab st = false /\ 1 <= v <= 4)
  | 4%nat => from_matlab st = false /\ 1 <= v <= 4
  | 5%nat => from_matlab st = false /\ 2 <= v <= 4
  | 6%nat => from_matlab st = false /\ 3 <= v <= 4
  | _ => from_matlab st = false /\ 4 <= v <= 4
  end.

(** ** Sample inputs *)

(** A measurement group with optional bounds ([None]: the checkbox is off
    and the limit keeps its default). *)
Definition limits_group (name : string) (low high : option float64) : measurement_group :=
  {| measurement := name;
     wants_minimum := bool_decide (is_Some low);
     min_limit := default (Fin 0) low;
     wants_maximum := bool_decide (is_Some high);
     max_limit := default (Fin 1) high |}.

(** A module filtering "Nuclei" by measurements. *)
Definition sample_module (choice : filter_choice_t) (groups : list measurement_group)
    (additional : list additional_object) : FilterObjects :=
  {| target_name := "FilteredNuclei";
     object_name := "Nuclei";
     rules_or_measurement := ROM_MEASUREMENTS;
     filter_choice := choice;
     enclosing_object_name := "Cells";
     measurements := groups;
     additional_objects := additional |}.

(** A workspace where "Nuclei" has the raster [nuclei], every other object
    set the raster [others], and where the measurement "Area" is [area] and
    every other measurement [other]. *)
Definition sample_workspace (nuclei others : raster) (area other : list float64)
    (scores : list (float64 * float64)) : workspace :=
  {| get_objects := fun name => if String.eqb name "Nuclei" then nuclei else others;
     get_current_measurement := fun _ name =>
       if String.eqb name "Area" then area else other;
     rules_score := scores |}.

(** A stand-in for scipy's position finders, for the worked examples: for
    each label asked for, the first pixel in row-major order, among those
    the enclosing raster gives that label, whose value no later one beats;
    (0, 0) when the label is absent. *)
Definition sample_position (beats : float64 -> float64 -> bool)
    (values : list (list float64)) (labels : raster) (e : Z) : nat * nat :=
  let cells :=
    mjoin (imap (fun r (row : list float64) => imap (fun c v => (r, c, v)) row) values) in
  let best :=
    foldl (fun (best : option (nat * nat * float64)) (cell : nat * nat * float64) =>
             match pixel labels cell.1.1 cell.1.2 with
             | Ok l =>
                 if l =? e then
                   match best with
                   | None => Some cell
                   | Some b => if beats cell.2 b.2 then Some cell else best
                   end
                 else best
             | Err _ => best
             end)
          None cells in
  match best with
  | Some b => b.1
  | None => (0%nat, 0%nat)
  end.

Definition sample_maximum_position (values : list (list float64)) (labels : raster)
    (index : list Z) : list (nat * nat) :=
  sample_position fgt values labels <$> index.

Definition sample_minimum_position (values : list (list float64)) (labels : raster)
    (index : list Z) : list (nat * nat) :=
  sample_position flt values labels <$> index.

(** ** Proof automation *)

(** Turns the boolean comparisons of rationals in the context and the goal
    into propositions, for [lra]. *)
Ltac q_to_prop :=
  repeat match goal with
  | H : Qle_bool _ _ = true |- _ => apply Qle_bool_iff in H
  | H : Qle_bool _ _ = false |- _ =>
      apply not_true_iff_false in H; rewrite Qle_bool_iff in H
  | H : negb _ = true |- _ => apply negb_true_iff in H
  | H : negb _ = false |- _ => apply negb_false_iff in H
  | |- Qle_bool _ _ = true => apply Qle_bool_iff
  | |- Qle_bool _ _ = false => apply not_true_iff_false; rewrite Qle_bool_iff
  | |- negb _ = true => apply negb_true_iff
  | |- negb _ = false => apply negb_false_iff
  end.

(** Splits the list [l] into its first [n] elements and the rest, closing
    the cases where it is shorter when the goal then starts from a raise. *)
Ltac split_list l n :=
  lazymatch n with
  | 0%nat => idtac
  | S ?n' =>
      let x := fresh "s" in
      destruct l as [|x l]; [try discriminate | split_list l n']
  end.

(** * Properties *)

(** ** Results and [mapM] *)

Lemma bind_Ok {A B} (m : result A) (f : A -> result B) (b : B) :
  m ≫= f = Ok b <-> exists a, m = Ok a /\ f a = Ok b.
Proof.
  destruct m as [a|e]; simpl; split.
  - intros H. exists a. auto.
  - intros (a' & Ha & Hf). congruence.
  - discriminate.
  - intros (a' & Ha & _). discriminate.
Qed.

Lemma mapM_Ok {A B} (f : A -> result B) (l : list A) (k : list B) :
  mapM f l = Ok k <-> Forall2 (fun x y => f x = Ok y) l k.
Proof.
  revert k. induction l as [|x l IH]; intros k; simpl.
  - split.
    + intros [= <-]. constructor.
    + intros H. inversion H. reflexivity.
  - split.
    + intros H. apply bind_Ok in H as (y & Hy & H).
      apply bind_Ok in H as (k' & Hk' & H). injection H as <-.
      constructor; [assumption|]. apply IH. assumption.
    + intros H. inversion H as [|? y ? k' Hy Hk']; subst.
      rewrite Hy. simpl. apply IH in Hk'. rewrite Hk'. reflexivity.
Qed.

Lemma mapM_Ok_total {A B} (f : A -> result B) (g : A -> B) (l : list A) :
  Forall (fun x => f x = Ok (g x)) l -> mapM f l = Ok (g <$> l).
Proof.
  intros H. apply mapM_Ok. induction H; simpl; constructor; auto.
Qed.

(** ** Integer indexing *)

Lemma norm_index_in_range (len : nat) (i : Z) :
  0 <= i < Z.of_nat len -> np.norm_index len i = Ok (Z.to_nat i).
Proof.
  intros [H0 H1]. unfold np.norm_index.
  apply Z.leb_le in H0. apply Z.ltb_lt in H1. rewrite H0, H1. reflexivity.
Qed.

Lemma norm_index_wraps (len : nat) (i : Z) :
  - Z.of_nat len <= i < 0 ->
  np.norm_index len i = Ok (Z.to_nat (Z.of_nat len + i)).
Proof.
  intros [H0 H1]. unfold np.norm_index.
  replace (0 <=? i) with false by (symmetry; apply Z.leb_gt; lia).
  apply Z.leb_le in H0. apply Z.ltb_lt in H1. simpl. rewrite H0, H1. reflexivity.
Qed.

Lemma norm_index_above (len : nat) (i : Z) :
  Z.of_nat len <= i -> np.norm_index len i = Err IndexError.
Proof.
  intros H. unfold np.norm_index.
  replace (i <? Z.of_nat len) with false by (symmetry; apply Z.ltb_ge; lia).
  replace (i <? 0) with false by (symmetry; apply Z.ltb_ge; lia).
  rewrite !andb_false_r. reflexivity.
Qed.

Lemma norm_index_below (len : nat) (i : Z) :
  i < - Z.of_nat len -> np.norm_index len i = Err IndexError.
Proof.
  intros H. unfold np.norm_index.
  replace (0 <=? i) with false by (symmetry; apply Z.leb_gt; lia).
  replace (- Z.of_nat len <=? i) with false by (symmetry; apply Z.leb_gt; lia).
  reflexivity.
Qed.

Lemma norm_index_Ok (len : nat) (i : Z) (n : nat) :
  np.norm_index len i = Ok n -> (n < len)%nat.
Proof.
  unfold np.norm_index.
  destruct (Z.leb_spec 0 i), (Z.ltb_spec i (Z.of_nat len)),
           (Z.leb_spec (- Z.of_nat len) i), (Z.ltb_spec i 0);
    simpl; intros [= <-]; lia.
Qed.

Lemma index_in_range {A} (a : list A) (i : Z) (x : A) :
  0 <= i -> a !! Z.to_nat i = Some x -> np.index a i = Ok x.
Proof.
  intros H0 Hx. unfold np.index.
  rewrite norm_index_in_range.
  - simpl. rewrite Hx. reflexivity.
  - apply lookup_lt_Some in Hx. lia.
Qed.

Lemma index_wraps {A} (a : list A) (i : Z) (x : A) :
  - Z.of_nat (length a) <= i < 0 ->
  a !! Z.to_nat (Z.of_nat (length a) + i) = Some x -> np.index a i = Ok x.
Proof.
  intros H0 Hx. unfold np.index.
  rewrite norm_index_wraps by assumption.
  simpl. rewrite Hx. reflexivity.
Qed.

(** ** [np.put] *)

Lemma put_spec (idx : list Z) : forall (vals a : list Z),
  length idx = length vals ->
  Forall (fun i => 0 <= i < Z.of_nat (length a)) idx ->
  exists t, np.put a idx vals = Ok t /\ length t = length a /\
    (forall j : nat, Z.of_nat j ∉ idx -> t !! j = a !! j) /\
    (NoDup idx -> forall (k : nat) i v,
        idx !! k = Some i -> vals !! k = Some v -> t !! Z.to_nat i = Some v).
Proof.
  induction idx as [|i idx IH]; intros [|v vals] a Hlen Hrange;
    simpl in Hlen; try discriminate.
  - exists a. repeat split; auto. intros _ k i v Hk. discriminate.
  - inversion Hrange as [|? ? Hi Hrest]; subst. simpl.
    rewrite norm_index_in_range by assumption. simpl.
    destruct (IH vals (<[Z.to_nat i := v]> a)) as (t & Ht & Hlt & Hother & Hsel).
    + lia.
    + rewrite length_insert. assumption.
    + exists t. rewrite length_insert in Hlt. repeat split; auto.
      * intros j Hj. rewrite Hother.
        -- apply list_lookup_insert_ne. intros Heq. apply Hj. subst j.
           rewrite Z2Nat.id by lia. apply list_elem_of_here.
        -- intros Hin. apply Hj. apply list_elem_of_further. assumption.
      * intros Hnd k i' v' Hk Hv. inversion Hnd as [|? ? Hnotin Hnd']; subst.
        destruct k as [|k]; simpl in Hk, Hv.
        -- injection Hk as <-. injection Hv as <-.
           rewrite Hother.
           ++ apply list_lookup_insert_eq. lia.
           ++ rewrite Z2Nat.id by lia. assumption.
        -- eapply Hsel; eauto.
Qed.

Lemma put_out_of_range (idx : list Z) : forall (vals a : list Z),
  length idx = length vals ->
  Forall (fun i => 0 <= i) idx ->
  Exists (fun i => Z.of_nat (length a) <= i) idx ->
  np.put a idx vals = Err IndexError.
Proof.
  induction idx as [|i idx IH]; intros [|v vals] a Hlen Hpos Hex;
    simpl in Hlen; try discriminate.
  - inversion Hex.
  - inversion Hpos as [|? ? Hi Hpos']; subst. simpl.
    destruct (Z_lt_le_dec i (Z.of_nat (length a))) as [Hlt|Hge].
    + rewrite norm_index_in_range by lia. simpl.
      apply IH; [lia|assumption|].
      rewrite length_insert.
      inversion Hex as [? ? Hbad|? ? Hex']; subst; [lia|assumption].
    + rewrite norm_index_above by assumption. reflexivity.
Qed.

Lemma length_arange (lo hi : Z) : length (np.arange lo hi) = Z.to_nat (hi - lo).
Proof. apply length_seqZ. Qed.

Lemma lookup_arange (lo hi : Z) (k : nat) :
  (k < Z.to_nat (hi - lo))%nat -> np.arange lo hi !! k = Some (lo + Z.of_nat k).
Proof.
  intros Hk. apply lookup_seqZ_lt. lia.
Qed.

(** ** Strictly increasing selections *)

Lemma sorted_lt_lookup (l : list Z) :
  StronglySorted Z.lt l ->
  forall (i j : nat) a b, l !! i = Some a -> l !! j = Some b -> (i < j)%nat -> a < b.
Proof.
  induction 1 as [|x l Hs IH Hall]; intros i j a b Hi Hj Hij.
  - discriminate.
  - destruct j as [|j]; [lia|]. simpl in Hj.
    destruct i as [|i]; simpl in Hi.
    + injection Hi as <-. rewrite Forall_forall in Hall.
      apply Hall. eapply list_elem_of_lookup_2. eassumption.
    + eapply IH; eauto. lia.
Qed.

Lemma sorted_lt_NoDup (l : list Z) : StronglySorted Z.lt l -> NoDup l.
Proof.
  intros Hs. apply NoDup_alt. intros i j x Hi Hj.
  destruct (Nat.lt_trichotomy i j) as [Hlt|[Heq|Hgt]]; [|assumption|].
  - pose proof (sorted_lt_lookup l Hs i j x x Hi Hj Hlt). lia.
  - pose proof (sorted_lt_lookup l Hs j i x x Hj Hi Hgt). lia.
Qed.

Lemma sorted_lt_lookup_inv (l : list Z) :
  StronglySorted Z.lt l ->
  forall (i j : nat) a b, l !! i = Some a -> l !! j = Some b -> a < b -> (i < j)%nat.
Proof.
  intros Hs i j a b Hi Hj Hab.
  destruct (Nat.lt_trichotomy i j) as [Hlt|[Heq|Hgt]]; [assumption| |].
  - subst j. rewrite Hi in Hj. injection Hj as ->. lia.
  - pose proof (sorted_lt_lookup l Hs j i b a Hj Hi Hgt). lia.
Qed.

(** ** The remap table *)

(** The table [make_label_indexes] builds for a selection whose entries are
    distinct and lie in [1 .. max_label]. *)
Lemma make_label_indexes_spec (max_label : Z) (indexes : list Z) :
  0 <= max_label ->
  NoDup indexes ->
  Forall (fun i => 1 <= i <= max_label) indexes ->
  exists label_indexes,
    make_label_indexes max_label indexes = Ok label_indexes /\
    length label_indexes = Z.to_nat (max_label + 1) /\
    (forall (k : nat) a, indexes !! k = Some a ->
        label_indexes !! Z.to_nat a = Some (Z.of_nat k + 1)) /\
    (forall j, 0 <= j <= max_label -> j ∉ indexes ->
        label_indexes !! Z.to_nat j = Some 0).
Proof.
  intros Hmax Hnd Hrange. unfold make_label_indexes, np.zeros.
  replace (max_label + 1 <? 0) with false by (symmetry; apply Z.ltb_ge; lia).
  simpl.
  destruct (put_spec indexes
              (np.arange 1 (Z.of_nat (length indexes) + 1))
              (replicate (Z.to_nat (max_label + 1)) 0))
    as (t & Ht & Hlen & Hother & Hsel).
  - rewrite length_arange. lia.
  - rewrite length_replicate. eapply Forall_impl; [eassumption|].
    simpl. intros i Hi. lia.
  - exists t. rewrite length_replicate in Hlen. repeat split; auto.
    + intros k a Hk. eapply Hsel; eauto.
      rewrite lookup_arange; [f_equal; lia|].
      apply lookup_lt_Some in Hk. lia.
    + intros j Hj Hnotin. rewrite Hother.
      * apply lookup_replicate_2. lia.
      * rewrite Z2Nat.id by lia. assumption.
Qed.

(** C1. For a selection that is strictly increasing with all entries in
    [1 .. max_label], the remap table built by [run] exists, has
    [max_label + 1] entries, maps 0 to 0, maps the k-th survivor (counting
    from 1, in ascending order) to k, so that survivors [a < b] get new
    indexes [new(a) < new(b)], and maps every other index of
    [0 .. max_label] to 0. *)
Theorem remap_table_sequential (max_label : Z) (indexes : list Z) :
  0 <= max_label ->
  StronglySorted Z.lt indexes ->
  Forall (fun i => 1 <= i <= max_label) indexes ->
  exists label_indexes,
    make_label_indexes max_label indexes = Ok label_indexes /\
    length label_indexes = Z.to_nat (max_label + 1) /\
    label_indexes !! 0%nat = Some 0 /\
    (forall (k : nat) a, indexes !! k = Some a ->
        label_indexes !! Z.to_nat a = Some (Z.of_nat k + 1)) /\
    (forall a b na nb, a ∈ indexes -> b ∈ indexes -> a < b ->
        label_indexes !! Z.to_nat a = Some na ->
        label_indexes !! Z.to_nat b = Some nb -> na < nb) /\
    (forall j, 0 <= j <= max_label -> j ∉ indexes ->
        label_indexes !! Z.to_nat j = Some 0).
Proof.
  intros Hmax Hs Hrange.
  destruct (make_label_indexes_spec max_label indexes Hmax
              (sorted_lt_NoDup _ Hs) Hrange) as (t & Ht & Hlen & Hsel & Hother).
  exists t. repeat split; auto.
  - apply (Hother 0); [lia|]. intros Hin.
    rewrite Forall_forall in Hrange. apply Hrange in Hin. lia.
  - intros a b na nb Ha Hb Hab Hna Hnb.
    apply list_elem_of_lookup_1 in Ha as [ka Hka].
    apply list_elem_of_lookup_1 in Hb as [kb Hkb].
    pose proof (sorted_lt_lookup_inv _ Hs _ _ _ _ Hka Hkb Hab) as Hk.
    rewrite (Hsel _ _ Hka) in Hna. rewrite (Hsel _ _ Hkb) in Hnb.
    injection Hna as <-. injection Hnb as <-. lia.
Qed.

Lemma remap_table_sequential_witness :
  exists label_indexes,
    make_label_indexes 4 [2; 3] = Ok label_indexes /\
    length label_indexes = Z.to_nat (4 + 1) /\
    label_indexes !! 0%nat = Some 0 /\
    (forall (k : nat) a, [2; 3] !! k = Some a ->
        label_indexes !! Z.to_nat a = Some (Z.of_nat k + 1)) /\
    (forall a b na nb, a ∈ [2; 3] -> b ∈ [2; 3] -> a < b ->
        label_indexes !! Z.to_nat a = Some na ->
        label_indexes !! Z.to_nat b = Some nb -> na < nb) /\
    (forall j, 0 <= j <= 4 -> j ∉ [2; 3] ->
        label_indexes !! Z.to_nat j = Some 0).
Proof.
  apply (remap_table_sequential 4 [2; 3]).
  - lia.
  - repeat constructor; lia.
  - repeat constructor; lia.
Defined.

(** C10. With a non-negative maximum label and a selection of positive
    indexes, building the remap table raises [IndexError] as soon as one
    selected index is greater than the maximum label (the index is neither
    dropped nor clamped), and succeeds when every selected index is at most
    the maximum label. *)
Theorem label_indexes_index_error (max_label : Z) (indexes : list Z) :
  0 <= max_label ->
  Forall (fun i => 1 <= i) indexes ->
  (Exists (fun i => max_label < i) indexes ->
     make_label_indexes max_label indexes = Err IndexError) /\
  (Forall (fun i => i <= max_label) indexes ->
     exists label_indexes, make_label_indexes max_label indexes = Ok label_indexes).
Proof.
  intros Hmax Hpos. unfold make_label_indexes, np.zeros.
  replace (max_label + 1 <? 0) with false by (symmetry; apply Z.ltb_ge; lia).
  simpl. split.
  - intros Hex. apply put_out_of_range.
    + rewrite length_arange. lia.
    + eapply Forall_impl; [eassumption|]. simpl. intros i Hi. lia.
    + rewrite length_replicate. eapply Exists_impl; [eassumption|].
      simpl. intros i Hi. lia.
  - intros Hle.
    destruct (put_spec indexes
                (np.arange 1 (Z.of_nat (length indexes) + 1))
                (replicate (Z.to_nat (max_label + 1)) 0))
      as (t & Ht & _).
    + rewrite length_arange. lia.
    + rewrite length_replicate.
      rewrite Forall_forall in Hpos, Hle. apply Forall_forall.
      intros i Hi. specialize (Hpos i Hi). specialize (Hle i Hi). lia.
    + exists t. assumption.
Qed.

Lemma label_indexes_index_error_witness :
  make_label_indexes 2 [1; 3] = Err IndexError /\
  exists label_indexes, make_label_indexes 2 [1; 2] = Ok label_indexes.
Proof.
  split.
  - apply (label_indexes_index_error 2 [1; 3]).
    + lia.
    + repeat constructor; lia.
    + apply Exists_cons_tl, Exists_cons_hd. lia.
  - apply (label_indexes_index_error 2 [1; 2]).
    + lia.
    + repeat constructor; lia.
    + repeat constructor; lia.
Defined.

(** ** Indexing a table with a raster *)

Lemma norm_index_Ok_wrap (len : nat) (i : Z) (n : nat) :
  np.norm_index len i = Ok n ->
  n = wrap len i /\ - Z.of_nat len <= i < Z.of_nat len.
Proof.
  unfold np.norm_index, wrap.
  destruct (Z.leb_spec 0 i), (Z.ltb_spec i (Z.of_nat len)),
           (Z.leb_spec (- Z.of_nat len) i), (Z.ltb_spec i 0);
    simpl; intros [= <-]; split; lia.
Qed.

Lemma norm_index_total (len : nat) (i : Z) :
  - Z.of_nat len <= i < Z.of_nat len -> np.norm_index len i = Ok (wrap len i).
Proof.
  intros Hi. unfold wrap. destruct (Z.leb_spec 0 i).
  - apply norm_index_in_range. lia.
  - apply norm_index_wraps. lia.
Qed.

Lemma norm_index_Err (len : nat) (i : Z) (e : exn) :
  np.norm_index len i = Err e ->
  e = IndexError /\ (i < - Z.of_nat len \/ Z.of_nat len <= i).
Proof.
  unfold np.norm_index.
  destruct (Z.leb_spec 0 i), (Z.ltb_spec i (Z.of_nat len)),
           (Z.leb_spec (- Z.of_nat len) i), (Z.ltb_spec i 0);
    simpl; intros [= <-]; split; auto; lia.
Qed.

Lemma index_Ok_inv {A} (a : list A) (i : Z) (x : A) :
  np.index a i = Ok x ->
  a !! wrap (length a) i = Some x /\
  - Z.of_nat (length a) <= i < Z.of_nat (length a).
Proof.
  unfold np.index. intros H. apply bind_Ok in H as (n & Hn & H).
  apply norm_index_Ok_wrap in Hn as [-> Hi].
  destruct (a !! wrap (length a) i); [|discriminate].
  injection H as ->. auto.
Qed.

Lemma index_total {A} (a : list A) (i : Z) :
  - Z.of_nat (length a) <= i < Z.of_nat (length a) ->
  exists x, a !! wrap (length a) i = Some x /\ np.index a i = Ok x.
Proof.
  intros Hi. unfold np.index. rewrite norm_index_total by assumption. simpl.
  destruct (lookup_lt_is_Some_2 a (wrap (length a) i)) as [x Hx].
  - unfold wrap. destruct (Z.leb_spec 0 i); lia.
  - exists x. rewrite Hx. auto.
Qed.

Lemma index_Err {A} (a : list A) (i : Z) (e : exn) :
  np.index a i = Err e ->
  e = IndexError /\ (i < - Z.of_nat (length a) \/ Z.of_nat (length a) <= i).
Proof.
  unfold np.index. destruct (np.norm_index (length a) i) as [n|e'] eqn:Hn; simpl.
  - apply norm_index_Ok_wrap in Hn as [-> Hi].
    destruct (index_total a i Hi) as (x & Hx & _). rewrite Hx. discriminate.
  - intros [= <-]. eapply norm_index_Err. eassumption.
Qed.

Lemma mapM_Err {A B} (f : A -> result B) (l : list A) (e : exn) :
  mapM f l = Err e -> exists x, x ∈ l /\ f x = Err e.
Proof.
  induction l as [|x l IH]; simpl; [discriminate|].
  destruct (f x) as [y|e'] eqn:Hx; simpl.
  - destruct (mapM f l) as [k|e'] eqn:Hl; simpl; [discriminate|].
    intros [= <-]. destruct IH as (x' & Hin & Hx'); [reflexivity|].
    exists x'. split; [apply list_elem_of_further|]; assumption.
  - intros [= <-]. exists x. split; [apply list_elem_of_here|assumption].
Qed.

Lemma mapM_fails {A B} (f : A -> result B) (l : list A) (x : A) (e : exn) :
  x ∈ l -> f x = Err e -> exists e', mapM f l = Err e'.
Proof.
  intros Hin Hx. destruct (mapM f l) as [k|e'] eqn:Hl; [|eauto].
  apply mapM_Ok in Hl. apply list_elem_of_lookup_1 in Hin as [i Hi].
  destruct (Forall2_lookup_l _ _ _ _ _ Hl Hi) as (y & _ & Hy).
  congruence.
Qed.

Lemma Forall2_eq_fmap {A B} (f : A -> B) (l : list A) (k : list B) :
  Forall2 (fun x y => y = f x) l k -> k = f <$> l.
Proof.
  induction 1 as [|x y l k Hxy _ IH]; [reflexivity|].
  rewrite fmap_cons. congruence.
Qed.

Section take.
Context {A : Type} (d : A) (a : list A).

Lemma index_get (i : Z) : in_range (length a) i -> np.index a i = Ok (get d a i).
Proof.
  intros Hi. destruct (index_total a i Hi) as (x & Hx & Hix).
  unfold get. rewrite Hx. assumption.
Qed.

Lemma take_total (idx : list (list Z)) :
  Forall (Forall (in_range (length a))) idx ->
  np.take a idx = Ok (map2d (get d a) idx).
Proof.
  intros H. unfold np.take. apply mapM_Ok_total.
  eapply Forall_impl; [eassumption|]. simpl. intros row Hrow.
  apply mapM_Ok_total. eapply Forall_impl; [eassumption|].
  simpl. intros i Hi. apply index_get. assumption.
Qed.

Lemma take_Ok_inv (idx : list (list Z)) (out : list (list A)) :
  np.take a idx = Ok out ->
  out = (map2d (get d a) idx) /\ Forall (Forall (in_range (length a))) idx.
Proof.
  unfold np.take. intros H. apply mapM_Ok in H.
  assert (Hrows : Forall2 (fun row row' =>
                      row' = get d a <$> row /\ Forall (in_range (length a)) row)
                    idx out).
  { eapply Forall2_impl; [eassumption|]. simpl. intros row row' Hrow.
    apply mapM_Ok in Hrow. split.
    - apply Forall2_eq_fmap. eapply Forall2_impl; [eassumption|].
      simpl. intros i x Hix. apply index_Ok_inv in Hix as [Hx _].
      unfold get. rewrite Hx. reflexivity.
    - apply Forall_forall. intros i Hi.
      apply list_elem_of_lookup_1 in Hi as [k Hk].
      destruct (Forall2_lookup_l _ _ _ _ _ Hrow Hk) as (x & _ & Hix).
      apply index_Ok_inv in Hix as [_ Hi]. exact Hi. }
  split.
  - apply Forall2_eq_fmap. eapply Forall2_impl; [eassumption|].
    simpl. intros ? ? [? _]. assumption.
  - apply Forall_forall. intros row Hin.
    apply list_elem_of_lookup_1 in Hin as [k Hk].
    destruct (Forall2_lookup_l _ _ _ _ _ Hrows Hk) as (x & _ & _ & Hr).
    exact Hr.
Qed.

Lemma take_Err (idx : list (list Z)) (e : exn) :
  np.take a idx = Err e ->
  e = IndexError /\ exists row i, row ∈ idx /\ i ∈ row /\ ~ in_range (length a) i.
Proof.
  unfold np.take. intros H.
  apply mapM_Err in H as (row & Hrow & H).
  apply mapM_Err in H as (i & Hi & H).
  apply index_Err in H as [-> Hbad].
  split; [reflexivity|]. exists row, i. repeat split; auto.
  unfold in_range. lia.
Qed.

Lemma take_fails (idx : list (list Z)) (row : list Z) (i : Z) :
  row ∈ idx -> i ∈ row -> ~ in_range (length a) i -> np.take a idx = Err IndexError.
Proof.
  intros Hrow Hi Hbad.
  destruct (np.take a idx) as [out|e] eqn:H.
  - apply (take_Ok_inv) in H as [_ H].
    rewrite Forall_forall in H. specialize (H row Hrow).
    rewrite Forall_forall in H. specialize (H i Hi). contradiction.
  - apply take_Err in H as [-> _]. reflexivity.
Qed.

End take.

(** ** Pixels, shapes and maxima of rasters *)

Lemma pixel_Ok {A} (a : list (list A)) (r c : nat) (v : A) :
  pixel a r c = Ok v <-> exists row, a !! r = Some row /\ row !! c = Some v.
Proof.
  unfold pixel. split.
  - destruct (a !! r) as [row|]; [|discriminate].
    destruct (row !! c) as [x|] eqn:Hc; [|discriminate].
    intros [= ->]. eauto.
  - intros (row & -> & ->). reflexivity.
Qed.

Lemma pixel_map2d {A B} (f : A -> B) (a : list (list A)) (r c : nat) (v : A) :
  pixel a r c = Ok v -> pixel (map2d f a) r c = Ok (f v).
Proof.
  rewrite !pixel_Ok. intros (row & Hr & Hc). exists (f <$> row).
  unfold map2d. rewrite !list_lookup_fmap, Hr, Hc. auto.
Qed.

Lemma pixel_map2d_inv {A B} (f : A -> B) (a : list (list A)) (r c : nat) (w : B) :
  pixel (map2d f a) r c = Ok w -> exists v, pixel a r c = Ok v /\ w = f v.
Proof.
  rewrite pixel_Ok. intros (row' & Hr & Hc). unfold map2d in Hr.
  rewrite list_lookup_fmap in Hr.
  destruct (a !! r) as [row|] eqn:Har; [|discriminate].
  injection Hr as <-. rewrite list_lookup_fmap in Hc.
  destruct (row !! c) as [v|] eqn:Hrc; [|discriminate].
  injection Hc as <-. exists v. split; [|reflexivity].
  apply pixel_Ok. eauto.
Qed.

Lemma elem_of_join_pixel {A} (a : list (list A)) (v : A) :
  v ∈ mjoin a <-> exists r c, pixel a r c = Ok v.
Proof.
  rewrite list_elem_of_join. split.
  - intros (row & Hv & Hrow).
    apply list_elem_of_lookup_1 in Hrow as [r Hr].
    apply list_elem_of_lookup_1 in Hv as [c Hc].
    exists r, c. apply pixel_Ok. eauto.
  - intros (r & c & H). apply pixel_Ok in H as (row & Hr & Hc).
    exists row. split; eapply list_elem_of_lookup_2; eassumption.
Qed.

Lemma shape_map2d {A B} (f : A -> B) (a : list (list A)) :
  shape (map2d f a) = shape a.
Proof.
  unfold shape, map2d. rewrite <- list_fmap_compose.
  apply list_fmap_ext. intros _ row _. simpl. apply length_fmap.
Qed.

Lemma join_map2d {A B} (f : A -> B) (a : list (list A)) :
  mjoin (map2d f a) = f <$> mjoin a.
Proof.
  induction a as [|row a IH]; [reflexivity|].
  unfold map2d in *. rewrite fmap_cons. simpl. rewrite fmap_app, IH. reflexivity.
Qed.

Lemma map2d_compose {A B C} (f : A -> B) (g : B -> C) (a : list (list A)) :
  map2d g (map2d f a) = map2d (fun x => g (f x)) a.
Proof.
  unfold map2d. rewrite <- list_fmap_compose. apply list_fmap_ext.
  intros _ row _. simpl. rewrite <- list_fmap_compose. reflexivity.
Qed.

Lemma foldl_max_spec (xs : list Z) : forall x : Z,
  (foldl Z.max x xs = x \/ foldl Z.max x xs ∈ xs) /\
  x <= foldl Z.max x xs /\
  Forall (fun y => y <= foldl Z.max x xs) xs.
Proof.
  induction xs as [|y xs IH]; intros x; simpl.
  - repeat split; [left; reflexivity|lia|constructor].
  - destruct (IH (Z.max x y)) as (Hin & Hle & Hall). repeat split.
    + destruct Hin as [Heq|Hin].
      * rewrite Heq. destruct (Z.max_spec x y) as [[_ ->]|[_ ->]].
        -- right. apply list_elem_of_here.
        -- left. reflexivity.
      * right. apply list_elem_of_further. assumption.
    + lia.
    + constructor; [lia|assumption].
Qed.

Lemma max_Ok (a : raster) (m : Z) :
  np.max a = Ok m <-> m ∈ mjoin a /\ Forall (fun x => x <= m) (mjoin a).
Proof.
  unfold np.max. destruct (mjoin a) as [|x xs].
  - split; [discriminate|]. intros [H _]. inversion H.
  - destruct (foldl_max_spec xs x) as (Hin & Hle & Hall).
    assert (Hm : foldl Z.max x xs ∈ x :: xs).
    { destruct Hin as [->|Hin];
        [apply list_elem_of_here|apply list_elem_of_further; assumption]. }
    split.
    + intros [= <-]. split; [assumption|]. constructor; assumption.
    + intros [Hmin Hmall]. f_equal.
      rewrite Forall_forall in Hmall.
      assert (Hall' : Forall (fun y => y <= foldl Z.max x xs) (x :: xs))
        by (constructor; assumption).
      rewrite Forall_forall in Hall'.
      specialize (Hmall _ Hm). specialize (Hall' _ Hmin). lia.
Qed.

Lemma max_total (a : raster) : mjoin a <> [] -> exists m, np.max a = Ok m.
Proof.
  unfold np.max. destruct (mjoin a); [congruence|eauto].
Qed.

(** ** [reindex] and [relabel] *)

Lemma reindex_Ok_inv (t : list Z) (max_label : Z) (seg out : raster) :
  reindex t max_label seg = Ok out ->
  out = map2d (relabeled t max_label) seg /\
  Forall (Forall (fun v => in_range (length t) (if max_label <? v then 0 else v))) seg.
Proof.
  unfold reindex. intros H. apply (take_Ok_inv 0) in H as [-> Hrange].
  split.
  - exact (map2d_compose (fun v => if max_label <? v then 0 else v) (get 0 t) seg).
  - unfold zero_above in Hrange. rewrite Forall_fmap in Hrange.
    eapply Forall_impl; [eassumption|]. simpl. intros row Hrow.
    rewrite Forall_fmap in Hrow. exact Hrow.
Qed.

Lemma reindex_total (t : list Z) (max_label : Z) (seg : raster) :
  Forall (Forall (fun v => in_range (length t) (if max_label <? v then 0 else v))) seg ->
  reindex t max_label seg = Ok (map2d (relabeled t max_label) seg).
Proof.
  intros H. unfold reindex. rewrite (take_total 0).
  - f_equal.
    exact (map2d_compose (fun v => if max_label <? v then 0 else v) (get 0 t) seg).
  - unfold zero_above. rewrite Forall_fmap.
    eapply Forall_impl; [eassumption|]. simpl. intros row Hrow.
    rewrite Forall_fmap. exact Hrow.
Qed.

Lemma reindex_Err (t : list Z) (max_label : Z) (seg : raster) (e : exn) :
  reindex t max_label seg = Err e -> e = IndexError.
Proof. unfold reindex. intros H. apply take_Err in H as [-> _]. reflexivity. Qed.

Lemma relabel_Ok_inv (self : FilterObjects) (ws : workspace) (indexes : list Z)
    (outs : list filtered_objects) :
  relabel self ws indexes = Ok outs ->
  exists max_label t,
    np.max (get_objects ws (object_name self)) = Ok max_label /\
    make_label_indexes max_label indexes = Ok t /\
    Forall2 (fun name out =>
               reindex t max_label (get_objects ws name) = Ok (fo_segmented out) /\
               fo_parent out = indexes)
            (object_names self) outs.
Proof.
  unfold relabel. intros H.
  apply bind_Ok in H as (max_label & Hmax & H).
  apply bind_Ok in H as (t & Ht & H).
  exists max_label, t. repeat split; auto.
  apply mapM_Ok in H. unfold object_names.
  - apply Forall2_fmap_l. eapply Forall2_impl; [eassumption|].
    simpl. intros names out Hout.
    unfold relabel_one in Hout.
    apply bind_Ok in Hout as (tl & Htl & Hout). injection Hout as <-. auto.
Qed.

Lemma put_Ok_inv (idx : list Z) : forall (vals a t : list Z),
  np.put a idx vals = Ok t ->
  length t = length a /\
  Forall (in_range (length a)) idx /\
  (forall j : nat, (forall i, i ∈ idx -> wrap (length a) i <> j) -> t !! j = a !! j).
Proof.
  induction idx as [|i idx IH]; intros [|v vals] a t; simpl; try discriminate.
  - intros [= <-]. repeat split; auto.
  - intros H. apply bind_Ok in H as (n & Hn & H).
    apply norm_index_Ok_wrap in Hn as [-> Hi].
    apply IH in H as (Hlen & Hrange & Hother).
    rewrite length_insert in Hlen, Hrange, Hother.
    repeat split; auto.
    intros j Hj. rewrite Hother.
    + apply list_lookup_insert_ne. apply Hj. apply list_elem_of_here.
    + intros i' Hi'. apply Hj. apply list_elem_of_further. assumption.
Qed.

Lemma make_label_indexes_Ok_inv (max_label : Z) (indexes t : list Z) :
  make_label_indexes max_label indexes = Ok t ->
  0 <= max_label + 1 /\
  length t = Z.to_nat (max_label + 1) /\
  Forall (in_range (length t)) indexes /\
  (forall j : nat, (j < length t)%nat ->
     (forall i, i ∈ indexes -> wrap (length t) i <> j) -> t !! j = Some 0).
Proof.
  unfold make_label_indexes, np.zeros.
  destruct (Z.ltb_spec (max_label + 1) 0) as [Hneg|Hpos]; [discriminate|].
  simpl. intros H. apply put_Ok_inv in H as (Hlen & Hrange & Hother).
  rewrite length_replicate in Hlen, Hrange, Hother.
  rewrite Hlen. repeat split; auto.
  intros j Hj Hfree. rewrite Hother by assumption.
  apply lookup_replicate_2. assumption.
Qed.

(** What [relabeled] is, for a table built from positive indexes. *)
Lemma relabeled_above (t : list Z) (max_label : Z) (indexes : list Z) (v : Z) :
  make_label_indexes max_label indexes = Ok t ->
  0 <= max_label ->
  Forall (fun i => 1 <= i) indexes ->
  max_label < v -> relabeled t max_label v = 0.
Proof.
  intros Ht Hmax Hpos Hv.
  apply make_label_indexes_Ok_inv in Ht as (_ & Hlen & Hrange & Hzero).
  unfold relabeled, get. apply Z.ltb_lt in Hv. rewrite Hv.
  change (wrap (length t) 0) with 0%nat.
  rewrite (Hzero 0%nat); [reflexivity|lia|].
  intros i Hi. rewrite Forall_forall in Hpos. specialize (Hpos i Hi).
  unfold wrap. destruct (Z.leb_spec 0 i); lia.
Qed.

Lemma relabeled_lookup (t : list Z) (max_label : Z) (v : Z) :
  length t = Z.to_nat (max_label + 1) ->
  0 <= v <= max_label ->
  t !! Z.to_nat v = Some (relabeled t max_label v).
Proof.
  intros Hlen Hv. unfold relabeled, get.
  replace (max_label <? v) with false by (symmetry; apply Z.ltb_ge; lia).
  unfold wrap. replace (0 <=? v) with true by (symmetry; apply Z.leb_le; lia).
  destruct (lookup_lt_is_Some_2 t (Z.to_nat v)) as [x Hx]; [lia|].
  rewrite Hx. reflexivity.
Qed.

(** A pass that succeeds had a non-negative maximum label. *)
Lemma relabel_Ok_max_label (self : FilterObjects) (ws : workspace)
    (max_label : Z) (t : list Z) (indexes : list Z) (out : raster) :
  np.max (get_objects ws (object_name self)) = Ok max_label ->
  make_label_indexes max_label indexes = Ok t ->
  reindex t max_label (get_objects ws (object_name self)) = Ok out ->
  0 <= max_label.
Proof.
  intros Hmax Ht Hout.
  apply max_Ok in Hmax as [Hin _].
  apply make_label_indexes_Ok_inv in Ht as (Hpos & Hlen & _).
  apply reindex_Ok_inv in Hout as [_ Hrange].
  apply list_elem_of_join in Hin as (row & Hv & Hrow).
  rewrite Forall_forall in Hrange. specialize (Hrange row Hrow).
  rewrite Forall_forall in Hrange. specialize (Hrange max_label Hv).
  rewrite Z.ltb_irrefl in Hrange. unfold in_range in Hrange. lia.
Qed.

Lemma relabeled_cases (t : list Z) (max_label : Z) (indexes : list Z) (v : Z) :
  length t = Z.to_nat (max_label + 1) ->
  (forall (k : nat) a, indexes !! k = Some a ->
      t !! Z.to_nat a = Some (Z.of_nat k + 1)) ->
  (forall j, 0 <= j <= max_label -> j ∉ indexes -> t !! Z.to_nat j = Some 0) ->
  0 <= v <= max_label ->
  ((v ∉ indexes) /\ relabeled t max_label v = 0) \/
  (exists k : nat, indexes !! k = Some v /\ relabeled t max_label v = Z.of_nat k + 1).
Proof.
  intros Hlen Hsel Hother Hv.
  pose proof (relabeled_lookup t max_label v Hlen Hv) as Hlook.
  destruct (decide (v ∈ indexes)) as [Hin|Hnotin].
  - right. apply list_elem_of_lookup_1 in Hin as [k Hk]. exists k.
    split; [assumption|]. rewrite (Hsel _ _ Hk) in Hlook. congruence.
  - left. split; [assumption|]. rewrite (Hother _ Hv Hnotin) in Hlook. congruence.
Qed.

(** C4, as the code has it. For a non-negative primary raster with maximum
    label [max_label] and a strictly increasing selection within
    [1 .. max_label], the remap table and the relabeled primary raster
    exist, and the relabeled raster is the first output of the pass; a pixel
    whose old label is not selected comes out as 0; and when every selected
    index occurs as a label of the primary raster, the maximum of the
    relabeled raster is the number K of selected indexes (0 when K = 0) and
    it has exactly K distinct non-zero labels. *)
Theorem relabel_conservation (self : FilterObjects) (ws : workspace)
    (indexes : list Z) (max_label : Z) :
  np.max (get_objects ws (object_name self)) = Ok max_label ->
  Forall (Forall (fun v => 0 <= v)) (get_objects ws (object_name self)) ->
  StronglySorted Z.lt indexes ->
  Forall (fun i => 1 <= i <= max_label) indexes ->
  exists label_indexes out,
    make_label_indexes max_label indexes = Ok label_indexes /\
    reindex label_indexes max_label (get_objects ws (object_name self)) = Ok out /\
    (forall outs, relabel self ws indexes = Ok outs ->
       (fo_segmented <$> head outs) = Some out) /\
    (forall (r c : nat) v v',
       pixel (get_objects ws (object_name self)) r c = Ok v ->
       v ∉ indexes -> pixel out r c = Ok v' -> v' = 0) /\
    (Forall (fun i => i ∈ mjoin (get_objects ws (object_name self))) indexes ->
       np.max out = Ok (Z.of_nat (length indexes)) /\
       length (distinct_labels out) = length indexes).
Proof.
  set (primary := get_objects ws (object_name self)).
  intros Hmax Hnonneg Hs Hrange.
  pose proof Hmax as Hmax'. apply max_Ok in Hmax' as [Hmax_in Hmax_all].
  assert (Hpix : forall v, v ∈ mjoin primary -> 0 <= v <= max_label).
  { intros v Hv. split.
    - apply Forall_join in Hnonneg. rewrite Forall_forall in Hnonneg. auto.
    - rewrite Forall_forall in Hmax_all. auto. }
  pose proof (Hpix _ Hmax_in) as Hmax0.
  destruct (make_label_indexes_spec max_label indexes (proj1 Hmax0)
              (sorted_lt_NoDup _ Hs) Hrange) as (t & Ht & Hlen & Hsel & Hother).
  assert (Hout : reindex t max_label primary = Ok (map2d (relabeled t max_label) primary)).
  { apply reindex_total. apply Forall_forall. intros row Hrow.
    apply Forall_forall. intros v Hv.
    assert (Hvp : v ∈ mjoin primary) by (apply list_elem_of_join; eauto).
    apply Hpix in Hvp.
    replace (max_label <? v) with false by (symmetry; apply Z.ltb_ge; lia).
    unfold in_range. lia. }
  assert (Hcases := fun v (Hv : v ∈ mjoin primary) =>
            relabeled_cases t max_label indexes v Hlen Hsel Hother (Hpix v Hv)).
  exists t, (map2d (relabeled t max_label) primary).
  split; [exact Ht|]. split; [exact Hout|]. split; [|split].
  - intros outs Houts.
    apply relabel_Ok_inv in Houts as (m' & t' & Hm' & Ht' & Hall).
    fold primary in Hm'. rewrite Hmax in Hm'. injection Hm' as <-.
    rewrite Ht in Ht'. injection Ht' as <-.
    inversion Hall as [|? out0 ? ? [Hout0 _] _]; subst. simpl.
    fold primary in Hout0. rewrite Hout in Hout0. congruence.
  - intros r c v v' Hp Hnotin Hp'.
    rewrite (pixel_map2d _ _ _ _ _ Hp) in Hp'. injection Hp' as <-.
    assert (Hv : v ∈ mjoin primary) by (apply elem_of_join_pixel; eauto).
    destruct (Hcases v Hv) as [[_ H0]|(k & Hk & _)]; [assumption|].
    exfalso. apply Hnotin. eapply list_elem_of_lookup_2. eassumption.
  - intros Hocc. split.
    2: {
    transitivity (length (seqZ 1 (Z.of_nat (length indexes)))).
    { apply Permutation_length. apply NoDup_Permutation.
      - apply NoDup_remove_dups.
      - apply NoDup_seqZ.
      - intros x. unfold distinct_labels.
        rewrite elem_of_remove_dups, list_elem_of_filter, join_map2d,
          list_elem_of_fmap, elem_of_seqZ.
        split.
        + intros (Hx & v & -> & Hv).
          destruct (Hcases v Hv) as [[_ H0]|(k & Hk & Hr)]; [contradiction|].
          rewrite Hr. apply lookup_lt_Some in Hk. lia.
        + intros Hx. split; [lia|].
          destruct (lookup_lt_is_Some_2 indexes (Z.to_nat (x - 1))) as [a Ha]; [lia|].
          pose proof (list_elem_of_lookup_2 _ _ _ Ha) as Hain.
          rewrite Forall_forall in Hocc. specialize (Hocc a Hain).
          exists a. split; [|assumption].
          destruct (Hcases a Hocc) as [[Hn _]|(k & Hk & Hr)]; [contradiction|].
          assert (k = Z.to_nat (x - 1)) by (eapply NoDup_lookup;
                              [apply sorted_lt_NoDup| |]; eassumption).
          subst k. lia. }
    rewrite length_seqZ. lia. }
    apply max_Ok. rewrite join_map2d. split.
    + destruct (length indexes) as [|n] eqn:HK.
      * apply list_elem_of_fmap. exists max_label. split; [|assumption].
        destruct (Hcases _ Hmax_in) as [[_ H0]|(k & Hk & _)]; [auto|].
        apply lookup_lt_Some in Hk. lia.
      * destruct (lookup_lt_is_Some_2 indexes n) as [a Ha]; [lia|].
        apply list_elem_of_fmap. exists a. split.
        -- pose proof (list_elem_of_lookup_2 _ _ _ Ha) as Hain.
           rewrite Forall_forall in Hocc. specialize (Hocc a Hain).
           destruct (Hcases a Hocc) as [[Hn _]|(k & Hk & Hr)]; [contradiction|].
           assert (k = n) by (eapply NoDup_lookup;
                              [apply sorted_lt_NoDup| |]; eassumption).
           subst k. lia.
        -- rewrite Forall_forall in Hocc. apply Hocc.
           eapply list_elem_of_lookup_2. eassumption.
    + apply Forall_fmap. apply Forall_forall. intros v Hv. simpl.
      destruct (Hcases v Hv) as [[_ ->]|(k & Hk & ->)]; [lia|].
      apply lookup_lt_Some in Hk. lia.
Qed.

Lemma relabel_unfold (self : FilterObjects) (ws : workspace) (indexes : list Z)
    (max_label : Z) (t : list Z) :
  np.max (get_objects ws (object_name self)) = Ok max_label ->
  make_label_indexes max_label indexes = Ok t ->
  relabel self ws indexes =
    mapM (relabel_one ws t max_label indexes) (object_list self).
Proof. intros Hm Ht. unfold relabel. rewrite Hm. simpl. rewrite Ht. reflexivity. Qed.

Lemma relabel_one_Err (ws : workspace) (t : list Z) (max_label : Z)
    (indexes : list Z) (names : string * string) (e : exn) :
  relabel_one ws t max_label indexes names = Err e -> e = IndexError.
Proof.
  unfold relabel_one.
  destruct (reindex t max_label (get_objects ws names.1)) as [tl|e'] eqn:H;
    simpl; [discriminate|].
  intros [= <-]. eapply reindex_Err. eassumption.
Qed.

Lemma relabel_fails (self : FilterObjects) (ws : workspace) (indexes : list Z)
    (max_label : Z) (t : list Z) (name : string) (row : list Z) (v : Z) :
  np.max (get_objects ws (object_name self)) = Ok max_label ->
  make_label_indexes max_label indexes = Ok t ->
  name ∈ object_names self ->
  row ∈ get_objects ws name -> v ∈ row ->
  ~ in_range (length t) (if max_label <? v then 0 else v) ->
  relabel self ws indexes = Err IndexError.
Proof.
  intros Hm Ht Hname Hrow Hv Hbad.
  rewrite (relabel_unfold _ _ _ _ _ Hm Ht).
  unfold object_names in Hname.
  apply list_elem_of_fmap in Hname as (names & -> & Hnames).
  assert (Hone : relabel_one ws t max_label indexes names = Err IndexError).
  { unfold relabel_one, reindex.
    rewrite (take_fails 0 t (zero_above max_label (get_objects ws names.1))
               ((fun v => if max_label <? v then 0 else v) <$> row)
               (if max_label <? v then 0 else v)); [reflexivity| | |assumption].
    - unfold zero_above.
      apply (list_elem_of_fmap_2
               (fun row : list Z => (fun v => if max_label <? v then 0 else v) <$> row)).
      assumption.
    - apply (list_elem_of_fmap_2 (fun v => if max_label <? v then 0 else v)).
      assumption. }
  destruct (mapM_fails _ _ _ _ Hnames Hone) as [e He].
  rewrite He. f_equal.
  apply mapM_Err in He as (names' & _ & He).
  eapply relabel_one_Err. eassumption.
Qed.

Lemma relabel_total (self : FilterObjects) (ws : workspace) (indexes : list Z)
    (max_label : Z) (t : list Z) :
  np.max (get_objects ws (object_name self)) = Ok max_label ->
  make_label_indexes max_label indexes = Ok t ->
  (forall name, name ∈ object_names self ->
     Forall (Forall (fun v => in_range (length t) (if max_label <? v then 0 else v)))
            (get_objects ws name)) ->
  relabel self ws indexes =
    Ok ((fun names : string * string =>
           {| fo_name := names.2;
              fo_segmented := map2d (relabeled t max_label) (get_objects ws names.1);
              fo_parent := indexes |}) <$> object_list self).
Proof.
  intros Hm Ht Hall.
  rewrite (relabel_unfold _ _ _ _ _ Hm Ht).
  apply mapM_Ok_total. apply Forall_forall. intros names Hnames.
  unfold relabel_one. rewrite reindex_total; [reflexivity|].
  apply Hall. unfold object_names. apply list_elem_of_fmap_2. assumption.
Qed.

(** On non-negative rasters, a pass whose table was built returns: every
    output raster is the input sent through [relabeled]. *)
Lemma relabel_nonneg_total (self : FilterObjects) (ws : workspace)
    (indexes : list Z) (max_label : Z) (t : list Z) :
  np.max (get_objects ws (object_name self)) = Ok max_label ->
  make_label_indexes max_label indexes = Ok t ->
  0 <= max_label ->
  (forall name, name ∈ object_names self ->
     Forall (Forall (fun v => 0 <= v)) (get_objects ws name)) ->
  relabel self ws indexes =
    Ok ((fun names : string * string =>
           {| fo_name := names.2;
              fo_segmented := map2d (relabeled t max_label) (get_objects ws names.1);
              fo_parent := indexes |}) <$> object_list self).
Proof.
  intros Hm Ht Hmax Hall. apply relabel_total; [assumption..|].
  apply make_label_indexes_Ok_inv in Ht as (_ & Hlen & _).
  intros name Hname. specialize (Hall name Hname).
  eapply Forall_impl; [eassumption|]. simpl. intros row Hrow.
  eapply Forall_impl; [eassumption|]. simpl. intros v Hv.
  unfold in_range. destruct (Z.ltb_spec max_label v); lia.
Qed.

(** The maximum of a non-negative raster is non-negative. *)
Lemma max_nonneg (a : raster) (m : Z) :
  np.max a = Ok m -> Forall (Forall (fun v => 0 <= v)) a -> 0 <= m.
Proof.
  intros Hm Ha. apply max_Ok in Hm as [Hin _].
  apply Forall_join in Ha. rewrite Forall_forall in Ha. auto.
Qed.

Lemma primary_is_relabeled (self : FilterObjects) :
  object_name self ∈ object_names self.
Proof. unfold object_names, object_list. rewrite fmap_cons. apply list_elem_of_here. Qed.



(** C9, as the code has it. A negative pixel value [v] is rejected, with
    [IndexError], only when it lies below [-(max_label + 1)].  A negative
    value with [-(max_label + 1) <= v] is accepted (when no pixel of any
    relabeled raster lies below that bound, the pass succeeds) and is
    relabeled to the table entry counted from the end,
    [label_indexes[max_label + 1 + v]]. *)
Theorem negative_label_wraps (self : FilterObjects) (ws : workspace)
    (indexes : list Z) (max_label : Z) (label_indexes : list Z)
    (i : nat) (name : string) (r c : nat) (v : Z) :
  np.max (get_objects ws (object_name self)) = Ok max_label ->
  make_label_indexes max_label indexes = Ok label_indexes ->
  object_names self !! i = Some name ->
  pixel (get_objects ws name) r c = Ok v ->
  v < 0 ->
  (v < - (max_label + 1) -> relabel self ws indexes = Err IndexError) /\
  (- (max_label + 1) <= v ->
   (forall name', name' ∈ object_names self ->
      Forall (Forall (fun v' => - (max_label + 1) <= v')) (get_objects ws name')) ->
   exists outs out v',
     relabel self ws indexes = Ok outs /\
     outs !! i = Some out /\
     pixel (fo_segmented out) r c = Ok v' /\
     label_indexes !! Z.to_nat (max_label + 1 + v) = Some v').
Proof.
  intros Hm Ht Hname Hp Hneg.
  pose proof Ht as Hinv.
  apply make_label_indexes_Ok_inv in Hinv as (Hpos & Hlen & _).
  split.
  - intros Hlow. apply pixel_Ok in Hp as (row & Hr & Hc).
    eapply (relabel_fails self ws indexes max_label label_indexes name row v);
      eauto using list_elem_of_lookup_2.
    replace (max_label <? v) with false by (symmetry; apply Z.ltb_ge; lia).
    unfold in_range. lia.
  - intros Hlow Hall.
    rewrite (relabel_total self ws indexes max_label label_indexes Hm Ht).
    + unfold object_names in Hname.
      apply list_lookup_fmap_Some in Hname as (names & -> & Hnames).
      destruct (lookup_lt_is_Some_2 label_indexes (Z.to_nat (max_label + 1 + v)))
        as [v' Hv']; [lia|].
      eexists _, _, v'. split; [reflexivity|]. split.
      * rewrite list_lookup_fmap, Hnames. reflexivity.
      * split; [|assumption]. simpl.
        rewrite (pixel_map2d _ _ _ _ _ Hp). f_equal.
        unfold relabeled, get.
        replace (max_label <? v) with false by (symmetry; apply Z.ltb_ge; lia).
        unfold wrap.
        replace (0 <=? v) with false by (symmetry; apply Z.leb_gt; lia).
        rewrite Hlen, Z2Nat.id by lia. rewrite Hv'. reflexivity.
    + intros name' Hname'. specialize (Hall name' Hname').
      eapply Forall_impl; [eassumption|]. simpl. intros row Hrow.
      eapply Forall_impl; [eassumption|]. simpl. intros v' Hv'.
      unfold in_range. destruct (Z.ltb_spec max_label v'); lia.
Qed.

(** ** Masked assignment and [argwhere] *)

Lemma clear_Ok_inv (a mask r : list bool) :
  np.clear a mask = Ok r ->
  length mask = length a /\ length r = length a /\
  forall i : nat,
    r !! i = (fun x => x && negb (default false (mask !! i))) <$> (a !! i).
Proof.
  unfold np.clear.
  destruct (Nat.eqb_spec (length mask) (length a)) as [Hlen|]; [|discriminate].
  intros [= <-]. split; [assumption|]. split.
  - rewrite length_zip_with. lia.
  - intros i. rewrite lookup_zip_with.
    destruct (a !! i) as [x|] eqn:Ha; simpl; [|reflexivity].
    destruct (mask !! i) as [b|] eqn:Hb; simpl.
    + destruct b, x; reflexivity.
    + apply lookup_lt_Some in Ha. apply lookup_ge_None in Hb. lia.
Qed.

Lemma clear_total (a mask : list bool) :
  length mask = length a -> exists r, np.clear a mask = Ok r.
Proof.
  intros Hlen. unfold np.clear.
  destruct (Nat.eqb_spec (length mask) (length a)); [eauto|contradiction].
Qed.

Lemma clear_Err (a mask : list bool) (e : exn) :
  np.clear a mask = Err e -> e = IndexError /\ length mask <> length a.
Proof.
  unfold np.clear.
  destruct (Nat.eqb_spec (length mask) (length a)); [discriminate|].
  intros [= <-]. auto.
Qed.

Lemma argwhere_from_spec (hits : list bool) : forall (k x : Z),
  x ∈ np.argwhere_from k hits <->
  exists i : nat, x = k + Z.of_nat i /\ hits !! i = Some true.
Proof.
  induction hits as [|b hits IH]; intros k x; simpl.
  - split; [intros H; inversion H|]. intros (i & _ & H). discriminate.
  - assert (Htail : x ∈ np.argwhere_from (k + 1) hits <->
              exists i : nat, x = k + Z.of_nat (S i) /\ hits !! i = Some true).
    { rewrite IH. split; intros (i & -> & Hi); exists i; split; auto; lia. }
    destruct b.
    + rewrite elem_of_cons, Htail. split.
      * intros [->|(i & -> & Hi)]; [exists 0%nat|exists (S i)]; split; auto; lia.
      * intros ([|i] & -> & Hi); [left; lia|right; eauto].
    + rewrite Htail. split.
      * intros (i & -> & Hi). exists (S i). auto.
      * intros ([|i] & -> & Hi); [discriminate|eauto].
Qed.

Lemma argwhere_succ_spec (hits : list bool) (k : Z) :
  k ∈ (fun i => i + 1) <$> np.argwhere hits <->
  1 <= k /\ hits !! Z.to_nat (k - 1) = Some true.
Proof.
  rewrite list_elem_of_fmap. unfold np.argwhere. split.
  - intros (x & -> & Hx). apply argwhere_from_spec in Hx as (i & -> & Hi).
    split; [lia|]. replace (Z.to_nat (0 + Z.of_nat i + 1 - 1)) with i by lia.
    assumption.
  - intros [Hk Hi]. exists (k - 1). split; [lia|].
    apply argwhere_from_spec. exists (Z.to_nat (k - 1)). split; [lia|assumption].
Qed.

Lemma argwhere_succ_sorted (hits : list bool) :
  StronglySorted Z.lt ((fun i => i + 1) <$> np.argwhere hits).
Proof.
  unfold np.argwhere. generalize 0.
  induction hits as [|b hits IH]; intros k; simpl; [constructor|].
  destruct b; [|apply IH].
  rewrite fmap_cons. constructor; [apply IH|].
  apply Forall_fmap, Forall_forall. intros x Hx. simpl.
  apply argwhere_from_spec in Hx as (i & -> & _). lia.
Qed.

(** ** The loop of [keep_within_limits] *)

Lemma bind_Err {A B} (m : result A) (f : A -> result B) (e : exn) :
  m ≫= f = Err e <-> m = Err e \/ exists a, m = Ok a /\ f a = Err e.
Proof.
  destruct m as [a|e']; simpl; split.
  - intros H. right. exists a. auto.
  - intros [H|(a' & Ha & Hf)]; congruence.
  - intros H. left. congruence.
  - intros [H|(a' & Ha & _)]; congruence.
Qed.

Lemma clear_if_Ok_inv (cond : bool) (mask a r : list bool) :
  (if cond then np.clear a mask else Ok a) = Ok r ->
  (cond = true -> length mask = length a) /\
  length r = length a /\
  forall i : nat,
    r !! i = (fun x => x && negb (cond && default false (mask !! i))) <$> (a !! i).
Proof.
  destruct cond.
  - intros H. apply clear_Ok_inv in H as (H1 & H2 & H3). auto.
  - intros [= <-]. split; [discriminate|]. split; [reflexivity|]. intros i.
    destruct (a !! i) as [x|]; simpl; [|reflexivity].
    rewrite andb_true_r. reflexivity.
Qed.

Lemma clear_if_total (cond : bool) (mask a : list bool) :
  (cond = true -> length mask = length a) ->
  exists r, (if cond then np.clear a mask else Ok a) = Ok r.
Proof.
  destruct cond; [|eauto]. intros H. apply clear_total. auto.
Qed.

Lemma clear_if_Err (cond : bool) (mask a : list bool) (e : exn) :
  (if cond then np.clear a mask else Ok a) = Err e -> e = IndexError.
Proof.
  destruct cond; [|discriminate]. intros H. apply clear_Err in H. tauto.
Qed.

(** One turn that returns: the hits keep the length they had (the length
    of the vector, on the first turn), the group's masks fitted, and each
    hit is what it was, or [True], restricted by the group's bounds. *)
Lemma limits_step_Ok_inv (ws : workspace) (src_name : string)
    (hits : option (list bool)) (group : measurement_group) (h : list bool) :
  limits_step ws src_name hits group = Ok h ->
  length h = Nat.max (length (default [] hits))
               (length (get_current_measurement ws src_name (measurement group))) /\
  (forall h0, hits = Some h0 -> mask_fits ws src_name (length h0) group) /\
  forall i : nat, (i < length h)%nat ->
    h !! i = Some (default true (default [] hits !! i) && passes ws src_name group i).
Proof.
  unfold limits_step, passes, mask_fits.
  set (values := get_current_measurement ws src_name (measurement group)).
  intros H.
  apply bind_Ok in H as (h1 & Hfirst & H).
  apply bind_Ok in H as (h2 & Hmin & Hmax).
  assert (H1 : length h1 = Nat.max (length (default [] hits)) (length values) /\
               (forall h0, hits = Some h0 -> h1 = h0 /\ (length values <= length h0)%nat) /\
               forall i : nat, (i < length h1)%nat ->
                 h1 !! i = Some (default true (default [] hits !! i))).
  { destruct hits as [h0|]; simpl in *.
    - destruct (Nat.ltb_spec (length h0) (length values)) as [Hlt|Hge].
      + apply clear_Ok_inv in Hfirst as (Hl & _). exfalso.
        unfold np.ones in Hl. rewrite length_fmap, length_replicate in Hl. lia.
      + injection Hfirst as <-. split; [lia|]. split.
        * intros h0' [= <-]. auto.
        * intros i Hi. destruct (lookup_lt_is_Some_2 h0 i Hi) as [b Hb].
          rewrite Hb. reflexivity.
    - injection Hfirst as <-. unfold np.ones. rewrite length_replicate.
      split; [reflexivity|]. split; [discriminate|].
      intros i Hi. apply lookup_replicate_2. assumption. }
  destruct H1 as (Hl1 & Hsome & Hg1).
  apply clear_if_Ok_inv in Hmin as (Hfit2 & Hl2 & Hg2).
  apply clear_if_Ok_inv in Hmax as (Hfit3 & Hl3 & Hg3).
  rewrite length_fmap in Hfit2, Hfit3.
  split; [lia|]. split.
  - intros h0 Hh0. destruct (Hsome h0 Hh0) as [-> Hle].
    destruct (wants_minimum group); [left; auto|].
    destruct (wants_maximum group); [left; rewrite Hfit3 by reflexivity; lia|].
    right. auto.
  - intros i Hi. rewrite Hg3, Hg2, Hg1 by lia. simpl.
    rewrite !list_lookup_fmap.
    destruct (values !! i) as [v|]; simpl.
    + rewrite andb_assoc. reflexivity.
    + rewrite !andb_false_r. simpl. rewrite !andb_true_r. reflexivity.
Qed.

Lemma limits_step_Err (ws : workspace) (src_name : string)
    (hits : option (list bool)) (group : measurement_group) (e : exn) :
  limits_step ws src_name hits group = Err e -> e = IndexError.
Proof.
  unfold limits_step. intros H.
  apply bind_Err in H as [H|(h1 & _ & H)].
  - destruct hits as [h0|]; [|discriminate].
    destruct (length h0 <? length _)%nat; [|discriminate].
    apply clear_Err in H. tauto.
  - apply bind_Err in H as [H|(h2 & _ & H)]; eapply clear_if_Err; eassumption.
Qed.

(** The first turn always returns; a later one returns when the group's
    masks fit the hits. *)
Lemma limits_step_returns (ws : workspace) (src_name : string)
    (hits : option (list bool)) (group : measurement_group) :
  (forall h0, hits = Some h0 -> mask_fits ws src_name (length h0) group) ->
  exists h, limits_step ws src_name hits group = Ok h.
Proof.
  unfold limits_step, mask_fits.
  set (values := get_current_measurement ws src_name (measurement group)).
  intros Hfit.
  assert (H1 : exists h1,
    match hits with
    | None => Ok (np.ones (length values))
    | Some hits =>
        if (length hits <? length values)%nat
        then np.clear (np.ones (length values)) (negb <$> hits)
        else Ok hits
    end = Ok h1 /\
    ((wants_minimum group = true \/ wants_maximum group = true) ->
     length values = length h1)).
  { destruct hits as [h0|].
    - specialize (Hfit h0 eq_refl).
      destruct (Nat.ltb_spec (length h0) (length values)) as [Hlt|Hge]; [lia|].
      exists h0. split; [reflexivity|].
      intros Hw. destruct Hfit as [?|(_ & Hlo & Hhi)]; [assumption|].
      rewrite Hlo, Hhi in Hw. destruct Hw; discriminate.
    - exists (np.ones (length values)). split; [reflexivity|].
      unfold np.ones. rewrite length_replicate. reflexivity. }
  destruct H1 as (h1 & -> & Hlen). simpl.
  destruct (clear_if_total (wants_minimum group)
              ((fun v => flt v (min_limit group)) <$> values) h1) as (h2 & Hh2).
  { intros Hw. rewrite length_fmap. auto. }
  rewrite Hh2. simpl.
  apply clear_if_Ok_inv in Hh2 as (_ & Hl2 & _).
  apply clear_if_total. intros Hw. rewrite length_fmap, Hl2. auto.
Qed.

Lemma mask_fits_longest (ws : workspace) (src_name : string) (n : nat)
    (groups : list measurement_group) :
  Forall (mask_fits ws src_name n) groups ->
  (longest ws src_name groups <= n)%nat.
Proof.
  induction 1 as [|group groups Hfit _ IH]; simpl; [lia|].
  unfold mask_fits in Hfit. lia.
Qed.

Lemma longest_bounds (ws : workspace) (src_name : string)
    (groups : list measurement_group) (group : measurement_group) :
  group ∈ groups ->
  (length (get_current_measurement ws src_name (measurement group))
   <= longest ws src_name groups)%nat.
Proof.
  induction 1; simpl; lia.
Qed.

(** A loop that returns: the hits never grow, every group met after the
    first hits exist had masks that fit them, and each hit stands for the
    conjunction of the groups' bounds at its position. *)
Lemma limits_loop_Ok_inv (ws : workspace) (src_name : string)
    (groups : list measurement_group) : forall hits r : option (list bool),
  limits_loop ws src_name hits groups = Ok r ->
  length (default [] r) =
    Nat.max (length (default [] hits)) (longest ws src_name groups) /\
  (forall h0, hits = Some h0 -> Forall (mask_fits ws src_name (length h0)) groups) /\
  (is_Some hits \/ groups <> [] -> is_Some r) /\
  forall i : nat, (i < length (default [] r))%nat ->
    default [] r !! i =
      Some (default true (default [] hits !! i) &&
            forallb (fun group => passes ws src_name group i) groups).
Proof.
  induction groups as [|group groups IH]; intros hits r; simpl.
  - intros [= <-]. split; [lia|]. split; [constructor|]. split.
    + intros [H|H]; [assumption|contradiction].
    + intros i Hi. destruct (lookup_lt_is_Some_2 _ i Hi) as [b Hb].
      rewrite Hb. simpl. rewrite andb_true_r. reflexivity.
  - intros H. apply bind_Ok in H as (h & Hstep & Hloop).
    apply limits_step_Ok_inv in Hstep as (Hlh & Hfit & Hgh).
    apply IH in Hloop as (Hlr & Hfits & Hsome & Hgr). simpl in Hlr, Hgr.
    split; [lia|]. split; [|split].
    + intros h0 ->. specialize (Hfit h0 eq_refl). constructor; [assumption|].
      specialize (Hfits h eq_refl). simpl in Hlh.
      replace (length h0) with (length h); [assumption|].
      unfold mask_fits in Hfit. lia.
    + intros _. apply Hsome. left. eauto.
    + intros i Hi. rewrite Hgr by assumption. f_equal.
      rewrite andb_assoc. f_equal.
      destruct (Nat.lt_ge_cases i (length h)) as [Hlt|Hge].
      * rewrite Hgh by assumption. reflexivity.
      * rewrite (lookup_ge_None_2 h) by assumption. simpl.
        rewrite (lookup_ge_None_2 (default [] hits)) by lia. simpl.
        unfold passes. rewrite lookup_ge_None_2 by lia. reflexivity.
Qed.

Lemma limits_loop_Err (ws : workspace) (src_name : string)
    (groups : list measurement_group) : forall (hits : option (list bool)) (e : exn),
  limits_loop ws src_name hits groups = Err e -> e = IndexError.
Proof.
  induction groups as [|group groups IH]; intros hits e; simpl; [discriminate|].
  intros H. apply bind_Err in H as [H|(h & _ & H)].
  - eapply limits_step_Err. eassumption.
  - eapply IH. eassumption.
Qed.

Lemma limits_loop_returns (ws : workspace) (src_name : string)
    (groups : list measurement_group) : forall hits : option (list bool),
  (forall h0, hits = Some h0 -> Forall (mask_fits ws src_name (length h0)) groups) ->
  (hits = None ->
   match groups with
   | [] => True
   | first :: rest =>
       Forall (mask_fits ws src_name
                 (length (get_current_measurement ws src_name (measurement first)))) rest
   end) ->
  exists r, limits_loop ws src_name hits groups = Ok r.
Proof.
  induction groups as [|group groups IH]; intros hits Hsome Hnone; simpl; [eauto|].
  destruct (limits_step_returns ws src_name hits group) as (h & Hh).
  { intros h0 Hh0. specialize (Hsome h0 Hh0). inversion Hsome. assumption. }
  rewrite Hh. simpl.
  apply limits_step_Ok_inv in Hh as (Hlh & Hfit & _).
  apply IH; [|discriminate].
  intros h' [= <-]. destruct hits as [h0|]; simpl in Hlh.
  - specialize (Hsome h0 eq_refl). inversion Hsome as [|? ? Hg Hrest]; subst.
    replace (length h) with (length h0); [assumption|].
    unfold mask_fits in Hg. lia.
  - rewrite Hlh. apply Hnone. reflexivity.
Qed.

(** The selection of [keep_within_limits] when it returns: there was a
    first group, the masks of the later groups fitted its hits, the
    selection is strictly increasing, and it holds the 1-based positions, up
    to the length of the longest vector, that every group lets pass. *)
Lemma keep_within_limits_Ok_inv (self : FilterObjects) (ws : workspace)
    (indexes : list Z) :
  keep_within_limits self ws = Ok indexes ->
  StronglySorted Z.lt indexes /\
  (exists first rest,
     measurements self = first :: rest /\
     Forall (mask_fits ws (object_name self)
               (length (get_current_measurement ws (object_name self)
                          (measurement first)))) rest) /\
  forall k : Z,
    k ∈ indexes <->
    1 <= k <= Z.of_nat (longest ws (object_name self) (measurements self)) /\
    forallb (fun group => passes ws (object_name self) group (Z.to_nat (k - 1)))
            (measurements self) = true.
Proof.
  unfold keep_within_limits. intros H.
  apply bind_Ok in H as (r & Hloop & H).
  destruct r as [hits|]; [|discriminate]. injection H as <-.
  split; [apply argwhere_succ_sorted|]. split.
  - destruct (measurements self) as [|first rest]; [discriminate|].
    exists first, rest. split; [reflexivity|].
    simpl in Hloop. apply bind_Ok in Hloop as (h & Hstep & Hloop).
    apply limits_step_Ok_inv in Hstep as (Hlh & _). simpl in Hlh.
    apply limits_loop_Ok_inv in Hloop as (_ & Hfits & _).
    rewrite <- Hlh. apply Hfits. reflexivity.
  - apply limits_loop_Ok_inv in Hloop as (Hlen & _ & _ & Hget). simpl in *.
    intros k. rewrite argwhere_succ_spec. split.
    + intros [Hk Hlook]. pose proof (lookup_lt_Some _ _ _ Hlook) as Hlt.
      split; [lia|]. rewrite Hget in Hlook by assumption. congruence.
    + intros [Hk Hall]. split; [lia|]. rewrite Hget by lia. rewrite Hall. reflexivity.
Qed.

Lemma keep_within_limits_Err (self : FilterObjects) (ws : workspace) (e : exn) :
  keep_within_limits self ws = Err e -> e = IndexError.
Proof.
  unfold keep_within_limits. intros H.
  apply bind_Err in H as [H|(r & _ & H)].
  - eapply limits_loop_Err. eassumption.
  - destruct r; congruence.
Qed.

(** When [keep_within_limits] returns. *)
Lemma keep_within_limits_returns (self : FilterObjects) (ws : workspace)
    (first : measurement_group) (rest : list measurement_group) :
  measurements self = first :: rest ->
  Forall (mask_fits ws (object_name self)
            (length (get_current_measurement ws (object_name self)
                       (measurement first)))) rest ->
  exists indexes, keep_within_limits self ws = Ok indexes.
Proof.
  intros Hm Hfits. unfold keep_within_limits.
  destruct (limits_loop_returns ws (object_name self) (measurements self) None)
    as (r & Hr).
  { discriminate. }
  { intros _. rewrite Hm. assumption. }
  rewrite Hr. simpl.
  apply limits_loop_Ok_inv in Hr as (_ & _ & Hsome & _).
  destruct Hsome as [hits ->]; [right; rewrite Hm; discriminate|]. eauto.
Qed.

(** In a call that returns the first group's vector is the longest. *)
Lemma keep_within_limits_first_is_longest (self : FilterObjects) (ws : workspace)
    (indexes : list Z) (first : measurement_group) (rest : list measurement_group) :
  keep_within_limits self ws = Ok indexes ->
  measurements self = first :: rest ->
  longest ws (object_name self) (measurements self) =
    length (get_current_measurement ws (object_name self) (measurement first)).
Proof.
  intros H Hm. apply keep_within_limits_Ok_inv in H as (_ & (f & r & Hm' & Hfits) & _).
  rewrite Hm in Hm'. injection Hm' as <- <-. rewrite Hm. simpl.
  apply mask_fits_longest in Hfits. lia.
Qed.

Lemma passes_true_iff (ws : workspace) (src_name : string)
    (group : measurement_group) (i : nat) :
  passes ws src_name group i = true <->
  forall v, get_current_measurement ws src_name (measurement group) !! i = Some v ->
    (wants_minimum group = true -> flt v (min_limit group) = false) /\
    (wants_maximum group = true -> fgt v (max_limit group) = false).
Proof.
  unfold passes.
  destruct (get_current_measurement ws src_name (measurement group) !! i) as [v|].
  - split.
    + intros H v' [= <-].
      apply andb_true_iff in H as [H1 H2].
      apply negb_true_iff, andb_false_iff in H1.
      apply negb_true_iff, andb_false_iff in H2.
      split; intros Hw; [destruct H1|destruct H2]; congruence.
    + intros H. destruct (H v eq_refl) as [H1 H2].
      destruct (wants_minimum group), (wants_maximum group); simpl;
        rewrite ?H1, ?H2; reflexivity.
  - split; [discriminate|reflexivity].
Qed.




(** C2 on a NaN: with "Area" = [NaN] and the minimum 0 switched on, object
    1 is selected although its value is not [>=] the bound. *)
Lemma range_filter_keeps_nan :
  let self := sample_module FI_LIMITS [limits_group "Area" (Some (Fin 0)) None] [] in
  let ws := sample_workspace [[1]] [] [NaN] [] [] in
  fge NaN (Fin 0) = false /\
  keep_within_limits self ws = Ok [1].
Proof. repeat split. Qed.

(** ** The order of float64 *)

Lemma fle_refl (x : float64) : isnan x = false -> fle x x = true.
Proof. destruct x; simpl; intros H; try congruence. q_to_prop. lra. Qed.

Lemma fle_trans (x y z : float64) :
  fle x y = true -> fle y z = true -> fle x z = true.
Proof.
  destruct x, y, z; simpl; intros Hxy Hyz; try congruence.
  q_to_prop. lra.
Qed.

Lemma fle_total (x y : float64) :
  isnan x = false -> isnan y = false -> fle x y = true \/ fle y x = true.
Proof.
  destruct x as [| |p|], y as [| |q|]; simpl; intros Hx Hy; try congruence; auto.
  destruct (Qlt_le_dec q p); [right|left]; q_to_prop; lra.
Qed.

Lemma flt_negb_fle (x y : float64) :
  isnan x = false -> isnan y = false -> flt x y = negb (fle y x).
Proof. destruct x, y; simpl; intros Hx Hy; congruence. Qed.

Lemma fgt_NegInf (y : float64) : fgt NegInf y = false.
Proof. destruct y; reflexivity. Qed.

Lemma fgt_PosInf (x : float64) : fgt x PosInf = false.
Proof. destruct x; reflexivity. Qed.

(** ** Rules *)

(** C6. [keep_by_rules] returns, in ascending order, the 1-based positions
    of the rows whose positive score, with NaN replaced by minus infinity,
    is strictly greater than the negative score, with NaN replaced by plus
    infinity; a row with a NaN in either column is never selected. *)
Theorem keep_by_rules_rejects_nan (ws : workspace) :
  exists indexes,
    keep_by_rules ws = Ok indexes /\
    StronglySorted Z.lt indexes /\
    (forall k : Z,
       k ∈ indexes <->
       1 <= k /\
       exists pos neg,
         rules_score ws !! Z.to_nat (k - 1) = Some (pos, neg) /\
         fgt (if isnan pos then NegInf else pos)
             (if isnan neg then PosInf else neg) = true) /\
    (forall (k : Z) pos neg,
       1 <= k ->
       rules_score ws !! Z.to_nat (k - 1) = Some (pos, neg) ->
       isnan pos = true \/ isnan neg = true ->
       k ∉ indexes).
Proof.
  unfold keep_by_rules. eexists. split; [reflexivity|].
  split; [apply argwhere_succ_sorted|].
  assert (Hmem : forall k : Z,
    k ∈ (fun i => i + 1) <$>
        np.argwhere ((fun row : float64 * float64 => fgt row.1 row.2) <$>
                     (coerce_scores <$> rules_score ws)) <->
    1 <= k /\
    exists pos neg,
      rules_score ws !! Z.to_nat (k - 1) = Some (pos, neg) /\
      fgt (if isnan pos then NegInf else pos)
          (if isnan neg then PosInf else neg) = true).
  { intros k. rewrite argwhere_succ_spec, !list_lookup_fmap. split.
    - intros [Hk H]. split; [assumption|].
      destruct (rules_score ws !! Z.to_nat (k - 1)) as [[pos neg]|]; [|discriminate].
      exists pos, neg. split; [reflexivity|]. simpl in H. congruence.
    - intros (Hk & pos & neg & -> & H). split; [assumption|].
      simpl. rewrite H. reflexivity. }
  split; [exact Hmem|].
  intros k pos neg Hk Hrow Hnan Hin.
  apply Hmem in Hin as (_ & pos' & neg' & Hrow' & Hgt).
  rewrite Hrow in Hrow'. injection Hrow' as <- <-.
  destruct Hnan as [Hn|Hn]; rewrite Hn in Hgt.
  - rewrite fgt_NegInf in Hgt. discriminate.
  - rewrite fgt_PosInf in Hgt. discriminate.
Qed.

(** ** The scan of [argmax] and [argmin] *)

Lemma argext_from_range (le : float64 -> float64 -> bool) (ip : list float64) :
  forall (mp : float64) (best k : nat),
    argext_from_result_in_range best k (length ip) (np.argext_from le mp best k ip).
Proof.
  unfold argext_from_result_in_range.
  induction ip as [|x ip IH]; intros mp best k; simpl; [left; reflexivity|].
  destruct (negb (le x mp)).
  - destruct (isnan x); [right; lia|].
    destruct (IH x k (S k)) as [->|H]; right; lia.
  - destruct (IH mp best (S k)) as [->|H]; [left; reflexivity|right; lia].
Qed.

Section scan.
Variable le : float64 -> float64 -> bool.
Hypothesis le_refl : forall x, isnan x = false -> le x x = true.
Hypothesis le_trans : forall x y z, le x y = true -> le y z = true -> le x z = true.
Hypothesis le_total :
  forall x y, isnan x = false -> isnan y = false -> le x y = true \/ le y x = true.

Lemma argext_from_spec (ip : list float64) : forall (mp : float64) (best k : nat),
  isnan mp = false ->
  Forall (fun x => isnan x = false) ip ->
  (np.argext_from le mp best k ip = best /\ Forall (fun x => le x mp = true) ip) \/
  (exists (j : nat) vb,
      np.argext_from le mp best k ip = (k + j)%nat /\
      ip !! j = Some vb /\ le vb mp = false /\
      forall (i : nat) v, ip !! i = Some v ->
        le v vb = true /\ ((i < j)%nat -> le vb v = false)).
Proof.
  induction ip as [|x ip IH]; intros mp best k Hmp Hip; simpl.
  - left. split; [reflexivity|constructor].
  - inversion Hip as [|? ? Hx Hip']; subst. rewrite Hx.
    destruct (le x mp) eqn:Hxmp; simpl.
    + destruct (IH mp best (S k) Hmp Hip') as [[Hb Hall]|(j & vb & Hb & Hj & Hvb & Hrest)].
      * left. split; [assumption|]. constructor; assumption.
      * right. exists (S j), vb. split; [lia|]. split; [assumption|].
        split; [assumption|]. intros [|i] v Hv; simpl in Hv.
        -- injection Hv as <-.
           assert (Hnb : le vb x = false).
           { destruct (le vb x) eqn:E; [|reflexivity].
             rewrite (le_trans _ _ _ E Hxmp) in Hvb. discriminate. }
           split; [|intros _; assumption].
           assert (Hvbn : isnan vb = false).
           { rewrite Forall_forall in Hip'. apply Hip'.
             eapply list_elem_of_lookup_2. eassumption. }
           destruct (le_total x vb Hx Hvbn) as [H|H]; [assumption|congruence].
        -- destruct (Hrest i v Hv) as [H1 H2]. split; [assumption|].
           intros Hi. apply H2. lia.
    + destruct (IH x k (S k) Hx Hip') as [[Hb Hall]|(j & vb & Hb & Hj & Hvb & Hrest)].
      * right. exists 0%nat, x. split; [lia|]. split; [reflexivity|].
        split; [assumption|]. intros [|i] v Hv; simpl in Hv.
        -- injection Hv as <-. split; [apply le_refl; assumption|lia].
        -- split; [|lia]. rewrite Forall_forall in Hall. apply Hall.
           eapply list_elem_of_lookup_2. eassumption.
      * right. exists (S j), vb. split; [lia|]. split; [assumption|].
        assert (Hvbn : isnan vb = false).
        { rewrite Forall_forall in Hip'. apply Hip'.
          eapply list_elem_of_lookup_2. eassumption. }
        split.
        -- destruct (le vb mp) eqn:E; [|reflexivity].
           destruct (le_total mp x Hmp Hx) as [H|H]; [|congruence].
           rewrite (le_trans _ _ _ E H) in Hvb. discriminate.
        -- intros [|i] v Hv; simpl in Hv.
           ++ injection Hv as <-. split; [|intros _; assumption].
              destruct (le_total x vb Hx Hvbn) as [H|H]; [assumption|congruence].
           ++ destruct (Hrest i v Hv) as [H1 H2]. split; [assumption|].
              intros Hi. apply H2. lia.
Qed.

(** On a vector without NaN the scan returns the first position of an
    extremum. *)
Lemma argext_first_extremum (v : list float64) :
  v <> [] ->
  Forall (fun x => isnan x = false) v ->
  exists (best : nat) vb,
    np.argext le v = Ok (Z.of_nat best) /\
    v !! best = Some vb /\
    forall (i : nat) x, v !! i = Some x ->
      le x vb = true /\ ((i < best)%nat -> le vb x = false).
Proof.
  intros Hne Hv. destruct v as [|x xs]; [congruence|].
  inversion Hv as [|? ? Hx Hxs]; subst. unfold np.argext. rewrite Hx.
  destruct (argext_from_spec xs x 0%nat 1%nat Hx Hxs)
    as [[Hb Hall]|(j & vb & Hb & Hj & Hvb & Hrest)]; rewrite Hb.
  - exists 0%nat, x. split; [reflexivity|]. split; [reflexivity|].
    intros [|i] y Hy; simpl in Hy.
    + injection Hy as <-. split; [apply le_refl; assumption|lia].
    + split; [|lia]. rewrite Forall_forall in Hall. apply Hall.
      eapply list_elem_of_lookup_2. eassumption.
  - exists (1 + j)%nat, vb. split; [reflexivity|]. split; [assumption|].
    assert (Hvbn : isnan vb = false).
    { rewrite Forall_forall in Hxs. apply Hxs.
      eapply list_elem_of_lookup_2. eassumption. }
    intros [|i] y Hy; simpl in Hy.
    + injection Hy as <-. split; [|intros _; assumption].
      destruct (le_total x vb Hx Hvbn) as [H|H]; [assumption|congruence].
    + destruct (Hrest i y Hy) as [H1 H2]. split; [assumption|].
      intros Hi. apply H2. lia.
Qed.

End scan.

Lemma argext_total (le : float64 -> float64 -> bool) (v : list float64) :
  v <> [] ->
  exists best : nat, np.argext le v = Ok (Z.of_nat best) /\ (best < length v)%nat.
Proof.
  intros Hne. destruct v as [|x xs]; [congruence|]. unfold np.argext.
  eexists. split; [reflexivity|]. simpl.
  destruct (isnan x); [lia|].
  destruct (argext_from_range le xs x 0%nat 1%nat) as [->|H]; lia.
Qed.

Lemma fge_refl (x : float64) : isnan x = false -> fge x x = true.
Proof. apply fle_refl. Qed.

Lemma fge_trans (x y z : float64) :
  fge x y = true -> fge y z = true -> fge x z = true.
Proof. unfold fge. intros Hxy Hyz. eapply fle_trans; eassumption. Qed.

Lemma fge_total (x y : float64) :
  isnan x = false -> isnan y = false -> fge x y = true \/ fge y x = true.
Proof. unfold fge. intros Hx Hy. destruct (fle_total x y Hx Hy); auto. Qed.

(** ** keep_one *)

(** C8. With [values] the measurement vector of the first group:
    [keep_one] returns the empty selection, without error, when [values] is
    empty; otherwise it returns the singleton [argmax(values) + 1] for
    "Maximal" and [argmin(values) + 1] for the other choice, an index in
    [1 .. N]; and on a vector without NaN the chosen position holds an
    extreme value and every earlier position holds a strictly less extreme
    one, so among tied positions the first is chosen. *)
Theorem keep_one_extremum (self : FilterObjects) (ws : workspace)
    (group : measurement_group) :
  first_group self = Ok group ->
  let values := get_current_measurement ws (object_name self) (measurement group) in
  (values = [] -> keep_one self ws = Ok []) /\
  (values <> [] ->
   exists best : nat,
     (best < length values)%nat /\
     match filter_choice self with
     | FI_MAXIMAL => np.argmax values
     | _ => np.argmin values
     end = Ok (Z.of_nat best) /\
     keep_one self ws = Ok [Z.of_nat best + 1] /\
     (Forall (fun x => isnan x = false) values ->
      exists vb,
        values !! best = Some vb /\
        forall (i : nat) x, values !! i = Some x ->
          match filter_choice self with
          | FI_MAXIMAL => fle x vb = true /\ ((i < best)%nat -> flt x vb = true)
          | _ => fge x vb = true /\ ((i < best)%nat -> fgt x vb = true)
          end)).
Proof.
  intros Hfirst values. unfold keep_one. rewrite Hfirst. simpl. fold values.
  split.
  - intros ->. reflexivity.
  - intros Hne.
    set (le := match filter_choice self with FI_MAXIMAL => fle | _ => fge end).
    assert (Harg : match filter_choice self with
                   | FI_MAXIMAL => np.argmax values
                   | _ => np.argmin values
                   end = np.argext le values).
    { unfold le, np.argmax, np.argmin. destruct (filter_choice self); reflexivity. }
    rewrite Harg.
    destruct (argext_total le values Hne) as (best & Hbest & Hlt).
    exists best. split; [assumption|]. split; [assumption|]. split.
    + assert (Hlen : (length values =? 0)%nat = false)
        by (destruct values; [congruence|reflexivity]).
      rewrite Hlen, Hbest. reflexivity.
    + intros Hnan.
      assert (Hle : (forall x, isnan x = false -> le x x = true) /\
                    (forall x y z, le x y = true -> le y z = true -> le x z = true) /\
                    (forall x y, isnan x = false -> isnan y = false ->
                                 le x y = true \/ le y x = true)).
      { unfold le. destruct (filter_choice self); (split; [|split]);
          first [exact fle_refl | exact fle_trans | exact fle_total
                | exact fge_refl | exact fge_trans | exact fge_total]. }
      destruct Hle as (Hrefl & Htrans & Htotal).
      destruct (argext_first_extremum le Hrefl Htrans Htotal values Hne Hnan)
        as (best' & vb & Hbest' & Hvb & Hext).
      rewrite Hbest in Hbest'. injection Hbest' as Heq.
      apply Nat2Z.inj in Heq. subst best'.
      exists vb. split; [assumption|]. intros i x Hx.
      destruct (Hext i x Hx) as [H1 H2].
      assert (Hxn : isnan x = false).
      { rewrite Forall_forall in Hnan. apply Hnan.
        eapply list_elem_of_lookup_2. eassumption. }
      assert (Hvbn : isnan vb = false).
      { rewrite Forall_forall in Hnan. apply Hnan.
        eapply list_elem_of_lookup_2. eassumption. }
      unfold le in H1, H2.
      destruct (filter_choice self); (split; [assumption|]); intros Hi;
        specialize (H2 Hi); unfold fgt, fge in *;
        rewrite flt_negb_fle by assumption; rewrite H2; reflexivity.
Qed.

Lemma keep_one_extremum_witness :
  let self := sample_module FI_MAXIMAL [limits_group "Area" None None] [] in
  let ws := sample_workspace [[1; 2; 3]] [] [Fin 10; Fin 50; Fin 50] [] [] in
  keep_one self ws = Ok [2] /\
  exists (best : nat) vb,
    (best < 3)%nat /\
    np.argmax [Fin 10; Fin 50; Fin 50] = Ok (Z.of_nat best) /\
    keep_one self ws = Ok [Z.of_nat best + 1] /\
    [Fin 10; Fin 50; Fin 50] !! best = Some vb /\
    forall (i : nat) x, [Fin 10; Fin 50; Fin 50] !! i = Some x ->
      fle x vb = true /\ ((i < best)%nat -> flt x vb = true).
Proof.
  intros self ws. split; [reflexivity|].
  destruct (keep_one_extremum self ws (limits_group "Area" None None) eq_refl)
    as [_ H].
  destruct H as (best & Hlt & Harg & Hrun & Hext); [discriminate|].
  destruct Hext as (vb & Hvb & Hall); [repeat constructor|].
  exists best, vb. auto.
Defined.

(** ** keep_per_object *)

Lemma sorted_le_NoDup_lt (l : list Z) :
  StronglySorted Z.le l -> NoDup l -> StronglySorted Z.lt l.
Proof.
  induction 1 as [|x l Hs IH Hall]; intros Hnd; [constructor|].
  inversion Hnd as [|? ? Hnotin Hnd']; subst.
  constructor; [auto|].
  rewrite Forall_forall in Hall. apply Forall_forall. intros y Hy.
  specialize (Hall y Hy). assert (x <> y) by (intros ->; contradiction). lia.
Qed.

Lemma drop_background_spec (l : list Z) :
  StronglySorted Z.lt l ->
  Forall (fun v => 0 <= v) l ->
  StronglySorted Z.lt (drop_background l) /\
  forall k, k ∈ drop_background l <-> k <> 0 /\ k ∈ l.
Proof.
  intros Hs Hpos. destruct l as [|x l]; simpl.
  - split; [constructor|]. intros k. rewrite elem_of_nil. tauto.
  - inversion Hs as [|? ? Hs' Hall]; subst.
    inversion Hpos as [|? ? Hx Hpos']; subst.
    rewrite Forall_forall in Hall.
    destruct x as [|x|x]; [| |lia].
    + split; [assumption|]. intros k. rewrite elem_of_cons. split.
      * intros Hk. specialize (Hall k Hk). split; [lia|auto].
      * intros [Hk [->|Hin]]; [congruence|assumption].
    + split; [assumption|]. intros k. split; [|tauto].
      intros Hk. split; [|assumption].
      apply elem_of_cons in Hk as [->|Hin]; [lia|].
      specialize (Hall k Hin). lia.
Qed.

Lemma collected_labels_spec (indexes : list Z) :
  Forall (fun v => 0 <= v) indexes ->
  StronglySorted Z.lt (drop_background (merge_sort Z.le (remove_dups indexes))) /\
  forall k, k ∈ drop_background (merge_sort Z.le (remove_dups indexes)) <->
            k <> 0 /\ k ∈ indexes.
Proof.
  intros Hpos.
  assert (Hmem : forall k, k ∈ merge_sort Z.le (remove_dups indexes) <-> k ∈ indexes).
  { intros k. rewrite merge_sort_Permutation. apply elem_of_remove_dups. }
  destruct (drop_background_spec (merge_sort Z.le (remove_dups indexes)))
    as [Hs Hk].
  - apply sorted_le_NoDup_lt.
    + apply StronglySorted_merge_sort; apply _.
    + rewrite merge_sort_Permutation. apply NoDup_remove_dups.
  - apply Forall_forall. intros k Hin. apply Hmem in Hin.
    rewrite Forall_forall in Hpos. auto.
  - split; [assumption|]. intros k. rewrite Hk, Hmem. reflexivity.
Qed.

Lemma collected_pixels (src_labels : raster) (best_pos : list (nat * nat))
    (indexes : list Z) :
  mapM (fun p => pixel src_labels p.1 p.2) best_pos = Ok indexes ->
  forall k, k ∈ indexes <->
            exists p, p ∈ best_pos /\ pixel src_labels p.1 p.2 = Ok k.
Proof.
  intros H k. apply mapM_Ok in H. split.
  - intros Hk. apply list_elem_of_lookup_1 in Hk as [i Hi].
    destruct (Forall2_lookup_r _ _ _ _ _ H Hi) as (p & Hp & Hpk).
    exists p. split; [eapply list_elem_of_lookup_2; eassumption|assumption].
  - intros (p & Hp & Hpk). apply list_elem_of_lookup_1 in Hp as [i Hi].
    destruct (Forall2_lookup_l _ _ _ _ _ H Hi) as (k' & Hk' & Hpk').
    rewrite Hpk in Hpk'. injection Hpk' as <-.
    eapply list_elem_of_lookup_2. eassumption.
Qed.

(** C7. For a non-negative child raster and with the measurement of the
    first group: unlabeled child pixels get the sentinel (minus infinity
    when searching the maximum, plus infinity when searching the minimum) as
    their value; a selection [keep_per_object] returns never holds 0, is
    strictly increasing (ascending and without repetition) and holds only
    labels of the child raster; when the enclosing raster has pixels and all
    of them are 0 the selection is empty; and when the positions found lie
    inside the child raster the selection exists and holds exactly the
    non-zero child labels read at those positions. *)
Theorem keep_per_object_no_background
    (maximum_position minimum_position :
       list (list float64) -> raster -> list Z -> list (nat * nat))
    (self : FilterObjects) (ws : workspace) (group : measurement_group) :
  first_group self = Ok group ->
  let src_labels := get_objects ws (object_name self) in
  let enclosing_labels := get_objects ws (enclosing_object_name self) in
  Forall (Forall (fun v => 0 <= v)) src_labels ->
  (forall sv (r c : nat),
     src_values self ws group = Ok sv ->
     pixel src_labels r c = Ok 0 ->
     pixel sv r c = Ok (if wants_max self then NegInf else PosInf)) /\
  (forall indexes,
     keep_per_object maximum_position minimum_position self ws = Ok indexes ->
     (0 ∉ indexes) /\
     StronglySorted Z.lt indexes /\
     Forall (fun k => k ∈ mjoin src_labels) indexes) /\
  (mjoin enclosing_labels <> [] ->
   Forall (Forall (fun v => v = 0)) enclosing_labels ->
   keep_per_object maximum_position minimum_position self ws = Ok []) /\
  (forall enclosing_max sv,
     np.max enclosing_labels = Ok enclosing_max ->
     enclosing_max <> 0 ->
     src_values self ws group = Ok sv ->
     let best_pos :=
       (if wants_max self then maximum_position else minimum_position)
         sv enclosing_labels (np.arange 1 (enclosing_max + 1)) in
     best_pos <> [] ->
     Forall (fun p => exists v, pixel src_labels p.1 p.2 = Ok v) best_pos ->
     exists indexes,
       keep_per_object maximum_position minimum_position self ws = Ok indexes /\
       forall k, k ∈ indexes <->
                 k <> 0 /\ exists p, p ∈ best_pos /\ pixel src_labels p.1 p.2 = Ok k).
Proof.
  intros Hfirst src_labels enclosing_labels Hnonneg.
  assert (Hpixpos : forall (pos : list (nat * nat)) idxs,
            mapM (fun p => pixel src_labels p.1 p.2) pos = Ok idxs ->
            Forall (fun k => k ∈ mjoin src_labels) idxs /\
            Forall (fun v => 0 <= v) idxs).
  { intros pos idxs H.
    assert (Hin : Forall (fun k => k ∈ mjoin src_labels) idxs).
    { apply Forall_forall. intros k Hk.
      apply (collected_pixels _ _ _ H) in Hk as (p & _ & Hp).
      apply elem_of_join_pixel. eauto. }
    split; [assumption|]. apply Forall_join in Hnonneg.
    rewrite Forall_forall in Hin, Hnonneg. apply Forall_forall. auto. }
  split; [|split; [|split]].
  - intros sv r c Hsv Hp. unfold src_values in Hsv.
    apply (take_Ok_inv NaN) in Hsv as [-> _].
    rewrite (pixel_map2d _ _ _ _ _ Hp). reflexivity.
  - intros indexes. unfold keep_per_object. rewrite Hfirst. simpl.
    fold src_labels enclosing_labels.
    destruct (np.max enclosing_labels) as [emax|]; simpl; [|discriminate].
    destruct (emax =? 0).
    { intros [= <-]. split; [apply not_elem_of_nil|]. split; constructor. }
    destruct (src_values self ws group) as [sv|]; simpl; [|discriminate].
    match goal with |- context [(length ?bp =? 0)%nat] => set (best_pos := bp) end.
    destruct (length best_pos =? 0)%nat; [discriminate|].
    intros H. apply bind_Ok in H as (idxs & Hidxs & H). injection H as <-.
    destruct (Hpixpos _ _ Hidxs) as [Hin Hpos].
    destruct (collected_labels_spec idxs Hpos) as [Hs Hk].
    split; [|split; [assumption|]].
    + intros H0. apply Hk in H0 as [H0 _]. congruence.
    + apply Forall_forall. intros k Hkin. apply Hk in Hkin as [_ Hkin].
      rewrite Forall_forall in Hin. auto.
  - intros Hne Hzero. unfold keep_per_object. rewrite Hfirst. simpl.
    fold enclosing_labels.
    assert (Hmax : np.max enclosing_labels = Ok 0).
    { apply max_Ok. apply Forall_join in Hzero.
      destruct (mjoin enclosing_labels) as [|x xs]; [congruence|].
      inversion Hzero as [|? ? Hx Hxs]; subst. split; [apply list_elem_of_here|].
      constructor; [lia|]. eapply Forall_impl; [eassumption|].
      simpl. intros y ->. lia. }
    rewrite Hmax. reflexivity.
  - intros emax sv Hmax Hneq Hsv best_pos Hne Hpos.
    unfold keep_per_object. rewrite Hfirst. simpl.
    fold src_labels enclosing_labels. rewrite Hmax. simpl.
    replace (emax =? 0) with false by (symmetry; apply Z.eqb_neq; assumption).
    rewrite Hsv. simpl. fold best_pos.
    replace (length best_pos =? 0)%nat with false
      by (destruct best_pos; [congruence|reflexivity]).
    destruct (mapM (fun p => pixel src_labels p.1 p.2) best_pos) as [idxs|e] eqn:Hidxs.
    + simpl. eexists. split; [reflexivity|].
      destruct (Hpixpos _ _ Hidxs) as [_ Hpos'].
      destruct (collected_labels_spec idxs Hpos') as [_ Hk].
      intros k. rewrite Hk, (collected_pixels _ _ _ Hidxs). reflexivity.
    + exfalso. apply mapM_Err in Hidxs as (p & Hp & Herr).
      rewrite Forall_forall in Hpos. destruct (Hpos p Hp) as [v Hv].
      congruence.
Qed.

Lemma keep_per_object_no_background_witness :
  let self := sample_module FI_MAXIMAL_PER_OBJECT [limits_group "Area" None None] [] in
  let ws := sample_workspace [[1; 1; 0]; [2; 0; 3]] [[1; 1; 1]; [2; 2; 2]]
              [Fin 10; Fin 50; Fin 30] [] [] in
  keep_per_object sample_maximum_position sample_minimum_position self ws = Ok [1; 2] /\
  (0 ∉ [1; 2]) /\
  StronglySorted Z.lt [1; 2].
Proof.
  intros self ws.
  assert (Hrun : keep_per_object sample_maximum_position sample_minimum_position
                   self ws = Ok [1; 2]) by reflexivity.
  split; [exact Hrun|].
  destruct (keep_per_object_no_background
              sample_maximum_position sample_minimum_position self ws
              (limits_group "Area" None None) eq_refl) as (_ & Hres & _).
  - repeat constructor; lia.
  - destruct (Hres [1; 2] Hrun) as (H0 & Hs & _). split; assumption.
Defined.

(** ** Worked passes *)


Lemma relabel_conservation_witness :
  let self := sample_module FI_LIMITS [] [] in
  let ws := sample_workspace [[1; 2; 0]; [4; 3; 3]] [] [] [] [] in
  exists label_indexes out,
    make_label_indexes 4 [2; 3] = Ok label_indexes /\
    reindex label_indexes 4 [[1; 2; 0]; [4; 3; 3]] = Ok out /\
    np.max out = Ok 2 /\
    length (distinct_labels out) = 2%nat.
Proof.
  intros self ws.
  destruct (relabel_conservation self ws [2; 3] 4)
    as (t & out & Ht & Hout & _ & _ & Hocc).
  - reflexivity.
  - repeat constructor; lia.
  - repeat constructor; lia.
  - repeat constructor; lia.
  - exists t, out. split; [exact Ht|]. split; [exact Hout|].
    apply Hocc. repeat constructor; apply list_elem_of_In; simpl; tauto.
Defined.

(** C4, as stated, fails: with labels {1, 3} in the raster and the
    selection {2} (within [1 .. 3]), K = 1, yet the relabeled raster is all
    zero: its maximum is 0 and it has no non-zero label. *)
Lemma relabel_survivor_absent_from_raster :
  let self := sample_module FI_LIMITS [] [] in
  let ws := sample_workspace [[1; 3]] [] [] [] [] in
  np.max (get_objects ws (object_name self)) = Ok 3 /\
  length [2] = 1%nat /\
  relabel self ws [2] =
    Ok [{| fo_name := "FilteredNuclei"; fo_segmented := [[0; 0]]; fo_parent := [2] |}] /\
  np.max [[0; 0]] = Ok 0 /\
  length (distinct_labels [[0; 0]]) = 0%nat.
Proof. repeat split. Qed.

Lemma negative_label_wraps_witness :
  let self := sample_module FI_LIMITS [] [] in
  let ws := sample_workspace [[-1; 2]] [] [] [] [] in
  exists outs out v',
    relabel self ws [2] = Ok outs /\
    outs !! 0%nat = Some out /\
    pixel (fo_segmented out) 0 0 = Ok v' /\
    [0; 0; 1] !! Z.to_nat (2 + 1 + -1) = Some v'.
Proof.
  intros self ws.
  destruct (negative_label_wraps self ws [2] 2 [0; 0; 1] 0 "Nuclei" 0 0 (-1))
    as [_ Hwrap].
  - reflexivity.
  - reflexivity.
  - reflexivity.
  - reflexivity.
  - lia.
  - apply Hwrap; [lia|].
    intros name' _. unfold ws, sample_workspace. simpl.
    destruct (String.eqb name' "Nuclei"); repeat constructor; lia.
Defined.

(** C9, as stated, fails: the raster [[-1, 2]] holds a negative pixel and is
    not rejected; with the selection {2} the pixel -1 is relabeled to 1. *)
Lemma negative_label_not_rejected :
  let self := sample_module FI_LIMITS [] [] in
  let ws := sample_workspace [[-1; 2]] [] [] [] [] in
  pixel (get_objects ws (object_name self)) 0 0 = Ok (-1) /\
  relabel self ws [2] =
    Ok [{| fo_name := "FilteredNuclei"; fo_segmented := [[1; 1]]; fo_parent := [2] |}].
Proof. repeat split. Qed.

(** ** The range filter on vectors without NaN *)

Lemma longest_uniform (ws : workspace) (src_name : string)
    (groups : list measurement_group) (N : nat) :
  groups <> [] ->
  Forall (fun group =>
            length (get_current_measurement ws src_name (measurement group)) = N) groups ->
  longest ws src_name groups = N.
Proof.
  intros Hne Hall. induction Hall as [|group groups Hg Hall IH]; [congruence|].
  simpl. rewrite Hg. destruct groups as [|group' groups'].
  - simpl. lia.
  - rewrite IH by congruence. lia.
Qed.

(** With at least one group and all vectors of one length, every mask fits
    and the call returns. *)
Lemma keep_within_limits_equal_lengths (self : FilterObjects) (ws : workspace)
    (N : nat) :
  measurements self <> [] ->
  Forall (fun group =>
            length (get_current_measurement ws (object_name self) (measurement group)) = N)
         (measurements self) ->
  exists indexes, keep_within_limits self ws = Ok indexes.
Proof.
  intros Hne Hall.
  destruct (measurements self) as [|first rest] eqn:Hm; [contradiction|].
  inversion Hall as [|? ? Hfirst Hrest]; subst.
  eapply keep_within_limits_returns; [eassumption|].
  eapply Forall_impl; [eassumption|]. simpl. intros group Hg.
  left. congruence.
Qed.

(** With at least one group, all vectors of length [N], and neither a value
    nor an active limit that is NaN, the selection is the ascending list of
    the indexes in [1 .. N] whose values are [>=] every active minimum and
    [<=] every active maximum. *)
Lemma range_filter_inclusive_without_nan (self : FilterObjects) (ws : workspace)
    (N : nat) :
  measurements self <> [] ->
  Forall (fun group =>
            length (get_current_measurement ws (object_name self) (measurement group)) = N /\
            Forall (fun v => isnan v = false)
                   (get_current_measurement ws (object_name self) (measurement group)) /\
            isnan (min_limit group) = false /\
            isnan (max_limit group) = false)
         (measurements self) ->
  exists indexes,
    keep_within_limits self ws = Ok indexes /\
    StronglySorted Z.lt indexes /\
    forall k : Z,
      k ∈ indexes <->
      1 <= k <= Z.of_nat N /\
      forall group v,
        group ∈ measurements self ->
        get_current_measurement ws (object_name self) (measurement group)
          !! Z.to_nat (k - 1) = Some v ->
        (wants_minimum group = true -> fge v (min_limit group) = true) /\
        (wants_maximum group = true -> fle v (max_limit group) = true).
Proof.
  intros Hne Hall.
  destruct (keep_within_limits_equal_lengths self ws N) as (indexes & Hrun);
    [assumption|eapply Forall_impl; [eassumption|]; simpl; tauto|].
  pose proof (keep_within_limits_Ok_inv self ws indexes Hrun) as (Hs & _ & Hmem).
  exists indexes. split; [assumption|]. split; [assumption|].
  assert (Hlong : longest ws (object_name self) (measurements self) = N).
  { apply longest_uniform; [assumption|].
    eapply Forall_impl; [eassumption|]. simpl. tauto. }
  rewrite Forall_forall in Hall.
  assert (Hconv : forall group v (i : nat), group ∈ measurements self ->
            get_current_measurement ws (object_name self) (measurement group) !! i
              = Some v ->
            flt v (min_limit group) = negb (fge v (min_limit group)) /\
            fgt v (max_limit group) = negb (fle v (max_limit group))).
  { intros group v i Hg Hv. destruct (Hall group Hg) as (_ & Hnan & Hlo & Hhi).
    rewrite Forall_forall in Hnan.
    assert (Hvn : isnan v = false)
      by (apply Hnan; eapply list_elem_of_lookup_2; eassumption).
    unfold fge, fgt. split; apply flt_negb_fle; assumption. }
  intros k. rewrite Hmem, Hlong, forallb_forall. split.
  - intros [Hk Hpass]. split; [assumption|]. intros group v Hg Hv.
    destruct (Hconv group v _ Hg Hv) as [Hc1 Hc2].
    pose proof (Hpass group (proj1 (list_elem_of_In _ _) Hg)) as Hp.
    destruct (proj1 (passes_true_iff _ _ _ _) Hp v Hv) as [H1 H2].
    split; intros Hw.
    + specialize (H1 Hw). rewrite Hc1 in H1. apply negb_false_iff in H1. exact H1.
    + specialize (H2 Hw). rewrite Hc2 in H2. apply negb_false_iff in H2. exact H2.
  - intros [Hk Hpass]. split; [assumption|]. intros group Hg.
    apply list_elem_of_In in Hg.
    apply passes_true_iff. intros v Hv.
    destruct (Hconv group v _ Hg Hv) as [Hc1 Hc2].
    destruct (Hpass group v Hg Hv) as [H1 H2].
    split; intros Hw.
    + rewrite Hc1, (H1 Hw). reflexivity.
    + rewrite Hc2, (H2 Hw). reflexivity.
Qed.

(** ** End to end *)

(** Labels {1,2,3}, "Area" = [10, 50, 30], "Maximal": object 2 is kept and
    becomes object 1. *)
Example run_single_maximum :
  run sample_maximum_position sample_minimum_position
      (sample_module FI_MAXIMAL [limits_group "Area" None None] [])
      (sample_workspace [[1; 1; 0]; [2; 3; 3]] [] [Fin 10; Fin 50; Fin 30] [] [])
  = Ok [{| fo_name := "FilteredNuclei";
           fo_segmented := [[0; 0; 0]; [1; 0; 0]];
           fo_parent := [2] |}].
Proof. reflexivity. Qed.

(** Labels {1,2,3,4}, "Area" = [5, 15, 25, 35], limits 10 .. 30: objects 2
    and 3 are kept and become 1 and 2. *)
Example run_limits :
  run sample_maximum_position sample_minimum_position
      (sample_module FI_LIMITS [limits_group "Area" (Some (Fin 10)) (Some (Fin 30))] [])
      (sample_workspace [[1; 2; 0]; [4; 3; 3]] [] [Fin 5; Fin 15; Fin 25; Fin 35] [] [])
  = Ok [{| fo_name := "FilteredNuclei";
           fo_segmented := [[0; 1; 0]; [0; 2; 2]];
           fo_parent := [2; 3] |}].
Proof. reflexivity. Qed.

(** A measurement vector longer than the raster has labels: object 3 passes
    the limits, the raster only goes up to label 2, and building the remap
    table raises [IndexError]. *)
Example run_vector_longer_than_raster :
  run sample_maximum_position sample_minimum_position
      (sample_module FI_LIMITS [limits_group "Area" (Some (Fin 10)) None] [])
      (sample_workspace [[1; 2; 0]] [] [Fin 5; Fin 15; Fin 25] [] [])
  = Err IndexError.
Proof. reflexivity. Qed.

(** * Further properties of the module *)

(** ** Passes over non-negative rasters *)

Lemma map2d_ext {A B} (f g : A -> B) (a : list (list A)) :
  Forall (Forall (fun x => f x = g x)) a -> map2d f a = map2d g a.
Proof.
  intros H. unfold map2d. apply Forall_fmap_ext.
  eapply Forall_impl; [eassumption|]. simpl. intros row Hrow.
  apply Forall_fmap_ext. assumption.
Qed.

Lemma map2d_id {A} (f : A -> A) (a : list (list A)) :
  Forall (Forall (fun x => f x = x)) a -> map2d f a = a.
Proof.
  intros H. unfold map2d. rewrite <- (list_fmap_id a) at 2.
  apply Forall_fmap_ext. eapply Forall_impl; [eassumption|]. simpl.
  intros row Hrow. rewrite <- (list_fmap_id row) at 2.
  apply Forall_fmap_ext. assumption.
Qed.

Lemma sorted_table_entries (max_label : Z) (indexes t : list Z) :
  make_label_indexes max_label indexes = Ok t ->
  0 <= max_label ->
  StronglySorted Z.lt indexes ->
  Forall (fun i => 1 <= i) indexes ->
  length t = Z.to_nat (max_label + 1) /\
  Forall (fun i => 1 <= i <= max_label) indexes /\
  (forall (k : nat) a, indexes !! k = Some a ->
      t !! Z.to_nat a = Some (Z.of_nat k + 1)) /\
  (forall j, 0 <= j <= max_label -> j ∉ indexes -> t !! Z.to_nat j = Some 0).
Proof.
  intros Ht Hmax Hs Hpos. pose proof Ht as Hinv.
  apply make_label_indexes_Ok_inv in Hinv as (_ & Hlen & Hrange & _).
  assert (Hbounds : Forall (fun i => 1 <= i <= max_label) indexes).
  { rewrite Forall_forall in Hpos, Hrange. apply Forall_forall. intros i Hi.
    specialize (Hpos i Hi). specialize (Hrange i Hi).
    unfold in_range in Hrange. lia. }
  destruct (make_label_indexes_spec max_label indexes Hmax
              (sorted_lt_NoDup _ Hs) Hbounds) as (t' & Ht' & _ & Hsel & Hother).
  rewrite Ht in Ht'. injection Ht' as <-. auto.
Qed.

(** X1. The Parent measurement inverts the relabeling. In a pass that
    succeeds on a strictly increasing selection of positive indexes, take
    any relabeled raster (primary or additional) and any pixel whose old
    label [v] is non-negative and whose new label [n] is not 0: then [n]
    lies in [1 .. K] and entry [n - 1] of the stored Parent measurement is
    the old label [v]. *)
Theorem relabel_parent_inverts (self : FilterObjects) (ws : workspace)
    (indexes : list Z) (outs : list filtered_objects)
    (i : nat) (name : string) (out : filtered_objects) (r c : nat) (v n : Z) :
  StronglySorted Z.lt indexes ->
  Forall (fun i => 1 <= i) indexes ->
  relabel self ws indexes = Ok outs ->
  object_names self !! i = Some name ->
  outs !! i = Some out ->
  pixel (get_objects ws name) r c = Ok v ->
  0 <= v ->
  pixel (fo_segmented out) r c = Ok n ->
  n <> 0 ->
  1 <= n <= Z.of_nat (length indexes) /\
  fo_parent out !! Z.to_nat (n - 1) = Some v.
Proof.
  intros Hs Hpos Hrun Hname Hout Hv Hv0 Hn Hn0.
  apply relabel_Ok_inv in Hrun as (max_label & t & Hmax & Ht & Hall).
  assert (Hnonneg : 0 <= max_label).
  { inversion Hall as [|? out0 ? ? [Hout0 _] _]; subst.
    eapply relabel_Ok_max_label; eassumption. }
  destruct (sorted_table_entries _ _ _ Ht Hnonneg Hs Hpos)
    as (Hlen & Hbounds & Hsel & Hother).
  destruct (Forall2_lookup_lr _ _ _ _ _ _ Hall Hname Hout) as [Hre Hparent].
  apply reindex_Ok_inv in Hre as [Hre _]. rewrite Hre in Hn.
  rewrite (pixel_map2d _ _ _ _ _ Hv) in Hn. injection Hn as <-.
  rewrite Hparent.
  destruct (Z.ltb_spec max_label v) as [Habove|Hle].
  - exfalso. apply Hn0. eapply relabeled_above; eassumption.
  - destruct (relabeled_cases t max_label indexes v Hlen Hsel Hother (conj Hv0 Hle))
      as [[_ H0]|(k & Hk & Hr)]; [contradiction|].
    rewrite Hr. pose proof (lookup_lt_Some _ _ _ Hk).
    split; [lia|]. replace (Z.to_nat (Z.of_nat k + 1 - 1)) with k by lia.
    assumption.
Qed.

Lemma relabel_parent_inverts_witness :
  let self := sample_module FI_LIMITS []
                [{| ao_object_name := "Cells"; ao_target_name := "FilteredCells" |}] in
  let ws := sample_workspace [[1; 1; 0]; [2; 0; 3]] [[1; 1; 7]; [2; 2; 3]] [] [] [] in
  1 <= 2 <= Z.of_nat (length [1; 3]) /\ [1; 3] !! Z.to_nat (2 - 1) = Some 3.
Proof.
  intros self ws.
  apply (relabel_parent_inverts self ws [1; 3]
           [{| fo_name := "FilteredNuclei";
               fo_segmented := [[1; 1; 0]; [0; 0; 2]];
               fo_parent := [1; 3] |};
            {| fo_name := "FilteredCells";
               fo_segmented := [[1; 1; 0]; [0; 0; 2]];
               fo_parent := [1; 3] |}]
           1 "Cells"
           {| fo_name := "FilteredCells";
              fo_segmented := [[1; 1; 0]; [0; 0; 2]];
              fo_parent := [1; 3] |}
           1 2 3 2).
  - repeat constructor; lia.
  - repeat constructor; lia.
  - reflexivity.
  - reflexivity.
  - reflexivity.
  - reflexivity.
  - lia.
  - reflexivity.
  - lia.
Defined.

Lemma arange_from_1 (n : Z) : np.arange 1 (n + 1) = seqZ 1 n.
Proof. unfold np.arange. f_equal. lia. Qed.

(** X2. Keeping every object changes nothing. With the selection
    [1 .. max_label] and non-negative rasters, the pass succeeds; every
    output raster is its input with the values above [max_label] set to 0,
    and the primary raster comes out unchanged. *)
Theorem relabel_keep_all_is_identity (self : FilterObjects) (ws : workspace)
    (max_label : Z) :
  np.max (get_objects ws (object_name self)) = Ok max_label ->
  (forall name, name ∈ object_names self ->
     Forall (Forall (fun v => 0 <= v)) (get_objects ws name)) ->
  relabel self ws (np.arange 1 (max_label + 1)) =
    Ok ((fun names : string * string =>
           {| fo_name := names.2;
              fo_segmented := zero_above max_label (get_objects ws names.1);
              fo_parent := np.arange 1 (max_label + 1) |}) <$> object_list self) /\
  zero_above max_label (get_objects ws (object_name self)) =
    get_objects ws (object_name self).
Proof.
  intros Hm Hall.
  assert (Hmax : 0 <= max_label).
  { eapply max_nonneg; [eassumption|]. apply Hall, primary_is_relabeled. }
  rewrite arange_from_1.
  destruct (make_label_indexes_spec max_label (seqZ 1 max_label) Hmax)
    as (t & Ht & Hlen & Hsel & Hother).
  { apply NoDup_seqZ. }
  { apply Forall_seqZ. intros i Hi. lia. }
  split.
  - rewrite (relabel_nonneg_total self ws _ max_label t Hm Ht Hmax Hall).
    f_equal. apply Forall_fmap_ext, Forall_forall. intros names Hnames.
    f_equal. apply map2d_ext.
    assert (Hname : names.1 ∈ object_names self)
      by (unfold object_names; apply list_elem_of_fmap_2; assumption).
    eapply Forall_impl; [apply (Hall _ Hname)|]. simpl. intros row Hrow.
    eapply Forall_impl; [eassumption|]. simpl. intros v Hv.
    destruct (Z.ltb_spec max_label v) as [Habove|Hle].
    + eapply relabeled_above; try eassumption.
      apply Forall_seqZ. intros i Hi. lia.
    + pose proof (relabeled_lookup t max_label v Hlen (conj Hv Hle)) as Hlook.
      destruct (Z.eq_dec v 0) as [->|Hv0].
      * rewrite (Hother 0) in Hlook; [congruence|lia|].
        rewrite elem_of_seqZ. lia.
      * rewrite (Hsel (Z.to_nat (v - 1)) v) in Hlook; [injection Hlook; lia|].
        apply lookup_seqZ. lia.
  - apply max_Ok in Hm as [_ Hle]. unfold zero_above.
    apply (map2d_id (fun v => if max_label <? v then 0 else v)).
    apply Forall_forall. intros row Hrow. apply Forall_forall. intros v Hv.
    assert (Hin : v ∈ mjoin (get_objects ws (object_name self)))
      by (apply list_elem_of_join; eauto).
    rewrite Forall_forall in Hle. specialize (Hle v Hin).
    destruct (Z.ltb_spec max_label v); [lia|reflexivity].
Qed.

Lemma relabel_keep_all_is_identity_witness :
  let self := sample_module FI_LIMITS []
                [{| ao_object_name := "Cells"; ao_target_name := "FilteredCells" |}] in
  let ws := sample_workspace [[1; 1; 0]; [2; 0; 3]] [[1; 1; 7]; [2; 2; 3]] [] [] [] in
  relabel self ws [1; 2; 3] =
    Ok [{| fo_name := "FilteredNuclei";
           fo_segmented := [[1; 1; 0]; [2; 0; 3]];
           fo_parent := [1; 2; 3] |};
        {| fo_name := "FilteredCells";
           fo_segmented := [[1; 1; 0]; [2; 2; 3]];
           fo_parent := [1; 2; 3] |}].
Proof.
  intros self ws.
  destruct (relabel_keep_all_is_identity self ws 3) as [Hrun _].
  - reflexivity.
  - intros name _. unfold ws, sample_workspace. simpl.
    destruct (String.eqb name "Nuclei"); repeat constructor; lia.
  - exact Hrun.
Defined.

(** X3. Keeping no object blanks every raster. With the empty selection
    and non-negative rasters, the pass succeeds and every output raster has
    the shape of its input and holds only 0; in particular a raster without
    objects ([max_label = 0]) is relabeled without error. *)
Theorem relabel_empty_selection_zeroes (self : FilterObjects) (ws : workspace)
    (max_label : Z) :
  np.max (get_objects ws (object_name self)) = Ok max_label ->
  (forall name, name ∈ object_names self ->
     Forall (Forall (fun v => 0 <= v)) (get_objects ws name)) ->
  relabel self ws [] =
    Ok ((fun names : string * string =>
           {| fo_name := names.2;
              fo_segmented := map2d (fun _ => 0) (get_objects ws names.1);
              fo_parent := [] |}) <$> object_list self).
Proof.
  intros Hm Hall.
  assert (Hmax : 0 <= max_label).
  { eapply max_nonneg; [eassumption|]. apply Hall, primary_is_relabeled. }
  assert (Ht : make_label_indexes max_label [] =
               Ok (replicate (Z.to_nat (max_label + 1)) 0)).
  { unfold make_label_indexes, np.zeros.
    replace (max_label + 1 <? 0) with false by (symmetry; apply Z.ltb_ge; lia).
    reflexivity. }
  rewrite (relabel_nonneg_total self ws _ max_label _ Hm Ht Hmax Hall).
  f_equal. apply Forall_fmap_ext, Forall_forall. intros names _.
  f_equal. apply map2d_ext.
  apply Forall_forall. intros row _. apply Forall_forall. intros v _.
  unfold relabeled, get.
  destruct (replicate (Z.to_nat (max_label + 1)) 0 !! _) as [x|] eqn:Hx;
    [|reflexivity].
  apply lookup_replicate in Hx as [-> _]. reflexivity.
Qed.

Lemma relabel_empty_selection_zeroes_witness :
  let self := sample_module FI_LIMITS [] [] in
  let ws := sample_workspace [[0; 0]; [0; 0]] [] [] [] [] in
  relabel self ws [] =
    Ok [{| fo_name := "FilteredNuclei";
           fo_segmented := [[0; 0]; [0; 0]];
           fo_parent := [] |}].
Proof.
  intros self ws.
  apply (relabel_empty_selection_zeroes self ws 0).
  - reflexivity.
  - intros name _. unfold ws, sample_workspace. simpl.
    destruct (String.eqb name "Nuclei"); repeat constructor; lia.
Defined.

(** X4. The converse of the out-of-range failure, for whole passes: when
    every selected index lies in [0 .. max_label] and the rasters are
    non-negative, the pass succeeds; it stores one object set per entry of
    [object_list], in that order and under the target names, each with the
    selection as its Parent measurement and with a raster of the shape of
    its source. *)
Theorem relabel_succeeds_within_labels (self : FilterObjects) (ws : workspace)
    (indexes : list Z) (max_label : Z) :
  np.max (get_objects ws (object_name self)) = Ok max_label ->
  Forall (fun i => 0 <= i <= max_label) indexes ->
  (forall name, name ∈ object_names self ->
     Forall (Forall (fun v => 0 <= v)) (get_objects ws name)) ->
  exists outs,
    relabel self ws indexes = Ok outs /\
    fo_name <$> outs = snd <$> object_list self /\
    Forall (fun out => fo_parent out = indexes) outs /\
    Forall2 (fun name out => shape (fo_segmented out) = shape (get_objects ws name))
            (object_names self) outs.
Proof.
  intros Hm Hrange Hall.
  assert (Hmax : 0 <= max_label).
  { eapply max_nonneg; [eassumption|]. apply Hall, primary_is_relabeled. }
  assert (Ht : exists t, make_label_indexes max_label indexes = Ok t).
  { unfold make_label_indexes, np.zeros.
    replace (max_label + 1 <? 0) with false by (symmetry; apply Z.ltb_ge; lia).
    simpl.
    destruct (put_spec indexes (np.arange 1 (Z.of_nat (length indexes) + 1))
                (replicate (Z.to_nat (max_label + 1)) 0)) as (t & Ht & _).
    - rewrite length_arange. lia.
    - rewrite length_replicate. eapply Forall_impl; [eassumption|].
      simpl. intros i Hi. lia.
    - eauto. }
  destruct Ht as [t Ht].
  rewrite (relabel_nonneg_total self ws _ max_label t Hm Ht Hmax Hall).
  eexists. split; [reflexivity|]. split; [|split].
  - rewrite <- list_fmap_compose. reflexivity.
  - apply Forall_fmap, Forall_forall. intros names _. reflexivity.
  - unfold object_names. apply Forall2_fmap, Forall_Forall2_diag, Forall_forall.
    intros names _. simpl. apply shape_map2d.
Qed.

Lemma relabel_succeeds_within_labels_witness :
  let self := sample_module FI_LIMITS []
                [{| ao_object_name := "Cells"; ao_target_name := "FilteredCells" |}] in
  let ws := sample_workspace [[1; 1; 0]; [2; 0; 3]] [[1; 1; 7]; [2; 2; 3]] [] [] [] in
  exists outs,
    relabel self ws [1; 3] = Ok outs /\
    fo_name <$> outs = ["FilteredNuclei"; "FilteredCells"].
Proof.
  intros self ws.
  destruct (relabel_succeeds_within_labels self ws [1; 3] 3)
    as (outs & Hrun & Hnames & _).
  - reflexivity.
  - repeat constructor; lia.
  - intros name _. unfold ws, sample_workspace. simpl.
    destruct (String.eqb name "Nuclei"); repeat constructor; lia.
  - exists outs. split; assumption.
Defined.

(** ** What the strategies hand to the relabeling *)

Lemma keep_one_Ok_inv (self : FilterObjects) (ws : workspace) (indexes : list Z) :
  keep_one self ws = Ok indexes ->
  indexes = [] \/ exists best : nat, indexes = [Z.of_nat best + 1].
Proof.
  unfold keep_one. destruct (first_group self) as [g|]; simpl; [|discriminate].
  destruct (length _ =? 0)%nat; [intros [= <-]; left; reflexivity|].
  set (values := get_current_measurement ws (object_name self) (measurement g)).
  assert (Harg : exists le, match filter_choice self with
                            | FI_MAXIMAL => np.argmax values
                            | _ => np.argmin values
                            end = np.argext le values).
  { destruct (filter_choice self); eexists; reflexivity. }
  destruct Harg as [le ->]. unfold np.argext.
  destruct values as [|x xs]; simpl; [discriminate|].
  intros [= <-]. right. eauto.
Qed.

Lemma keep_per_object_Ok_inv
    (maximum_position minimum_position :
       list (list float64) -> raster -> list Z -> list (nat * nat))
    (self : FilterObjects) (ws : workspace) (indexes : list Z) :
  Forall (Forall (fun v => 0 <= v)) (get_objects ws (object_name self)) ->
  keep_per_object maximum_position minimum_position self ws = Ok indexes ->
  StronglySorted Z.lt indexes /\
  forall k, k ∈ indexes ->
            k <> 0 /\ k ∈ mjoin (get_objects ws (object_name self)).
Proof.
  intros Hnonneg. unfold keep_per_object.
  destruct (first_group self) as [g|]; simpl; [|discriminate].
  destruct (np.max _) as [emax|]; simpl; [|discriminate].
  destruct (emax =? 0).
  { intros [= <-]. split; [constructor|]. intros k Hk. inversion Hk. }
  destruct (src_values self ws g) as [sv|]; simpl; [|discriminate].
  match goal with |- context [(length ?bp =? 0)%nat] => set (best_pos := bp) end.
  destruct (length best_pos =? 0)%nat; [discriminate|].
  intros H. apply bind_Ok in H as (idxs & Hidxs & H). injection H as <-.
  assert (Hin : forall k, k ∈ idxs -> k ∈ mjoin (get_objects ws (object_name self))).
  { intros k Hk. apply (collected_pixels _ _ _ Hidxs) in Hk as (p & _ & Hp).
    apply elem_of_join_pixel. eauto. }
  assert (Hpos : Forall (fun v => 0 <= v) idxs).
  { apply Forall_join in Hnonneg. rewrite Forall_forall in Hnonneg.
    apply Forall_forall. auto. }
  destruct (collected_labels_spec idxs Hpos) as [Hs Hk].
  split; [assumption|]. intros k Hkin. apply Hk in Hkin as [H0 Hkin]. auto.
Qed.

(** X5. Whatever the strategy, a selection that [run] obtains is strictly
    increasing and holds only indexes from 1 up (for the per-object
    strategies: when the filtered raster is non-negative), which is what the
    scatter write of the remap table needs to number the survivors 1..K
    without collisions. *)
Theorem select_strictly_increasing
    (maximum_position minimum_position :
       list (list float64) -> raster -> list Z -> list (nat * nat))
    (self : FilterObjects) (ws : workspace) (indexes : list Z) :
  Forall (Forall (fun v => 0 <= v)) (get_objects ws (object_name self)) ->
  select maximum_position minimum_position self ws = Ok indexes ->
  StronglySorted Z.lt indexes /\ Forall (fun i => 1 <= i) indexes.
Proof.
  intros Hnonneg. unfold select.
  assert (Hrules : keep_by_rules ws = Ok indexes ->
            StronglySorted Z.lt indexes /\ Forall (fun i => 1 <= i) indexes).
  { unfold keep_by_rules. intros [= <-]. split; [apply argwhere_succ_sorted|].
    apply Forall_forall. intros k Hk. apply argwhere_succ_spec in Hk. tauto. }
  assert (Hone : keep_one self ws = Ok indexes ->
            StronglySorted Z.lt indexes /\ Forall (fun i => 1 <= i) indexes).
  { intros H. apply keep_one_Ok_inv in H as [->|[best ->]].
    - split; constructor.
    - split; repeat constructor. lia. }
  assert (Hper : keep_per_object maximum_position minimum_position self ws = Ok indexes ->
            StronglySorted Z.lt indexes /\ Forall (fun i => 1 <= i) indexes).
  { intros H. apply keep_per_object_Ok_inv in H as [Hs Hk]; [|assumption].
    split; [assumption|]. apply Forall_forall. intros k Hkin.
    destruct (Hk k Hkin) as [H0 Hin].
    apply Forall_join in Hnonneg. rewrite Forall_forall in Hnonneg.
    specialize (Hnonneg k Hin). lia. }
  assert (Hlim : keep_within_limits self ws = Ok indexes ->
            StronglySorted Z.lt indexes /\ Forall (fun i => 1 <= i) indexes).
  { intros H. apply keep_within_limits_Ok_inv in H as (Hs & _ & Hmem).
    split; [assumption|].
    apply Forall_forall. intros k Hk. apply Hmem in Hk. lia. }
  destruct (rules_or_measurement self); [assumption|].
  destruct (filter_choice self); assumption.
Qed.

Lemma select_strictly_increasing_witness :
  let self := sample_module FI_MAXIMAL_PER_OBJECT [limits_group "Area" None None] [] in
  let ws := sample_workspace [[1; 1; 0]; [2; 0; 3]] [[1; 1; 1]; [2; 2; 2]]
              [Fin 10; Fin 50; Fin 30] [] [] in
  StronglySorted Z.lt [1; 2] /\ Forall (fun i => 1 <= i) [1; 2].
Proof.
  intros self ws.
  apply (select_strictly_increasing sample_maximum_position sample_minimum_position
           self ws [1; 2]).
  - repeat constructor; lia.
  - reflexivity.
Defined.

(** X6. A per-object selection always fits the remap table. For the two
    per-object strategies, with non-negative rasters and a filtered raster
    that has pixels: whenever [keep_per_object] returns, every selected
    index is a label of the filtered raster, hence at most its maximum
    label, and [run] succeeds with one relabeled object set per entry of
    [object_list]. *)
Theorem run_per_object_always_relabels
    (maximum_position minimum_position :
       list (list float64) -> raster -> list Z -> list (nat * nat))
    (self : FilterObjects) (ws : workspace) (indexes : list Z) :
  rules_or_measurement self = ROM_MEASUREMENTS ->
  filter_choice self = FI_MINIMAL_PER_OBJECT \/
  filter_choice self = FI_MAXIMAL_PER_OBJECT ->
  mjoin (get_objects ws (object_name self)) <> [] ->
  (forall name, name ∈ object_names self ->
     Forall (Forall (fun v => 0 <= v)) (get_objects ws name)) ->
  keep_per_object maximum_position minimum_position self ws = Ok indexes ->
  exists max_label outs,
    np.max (get_objects ws (object_name self)) = Ok max_label /\
    Forall (fun i => 1 <= i <= max_label) indexes /\
    run maximum_position minimum_position self ws = Ok outs /\
    length outs = length (object_list self) /\
    Forall (fun out => fo_parent out = indexes) outs.
Proof.
  intros Hrom Hchoice Hne Hall Hkeep.
  destruct (max_total _ Hne) as [max_label Hm].
  pose proof (Hall _ (primary_is_relabeled self)) as Hnonneg.
  pose proof (max_nonneg _ _ Hm Hnonneg) as Hmax.
  destruct (keep_per_object_Ok_inv _ _ _ _ _ Hnonneg Hkeep) as [Hs Hk].
  assert (Hrange : Forall (fun i => 1 <= i <= max_label) indexes).
  { apply Forall_forall. intros k Hkin. destruct (Hk k Hkin) as [H0 Hin].
    pose proof Hm as Hm'. apply max_Ok in Hm' as [_ Hle].
    rewrite Forall_forall in Hle. specialize (Hle k Hin).
    apply Forall_join in Hnonneg. rewrite Forall_forall in Hnonneg.
    specialize (Hnonneg k Hin). lia. }
  destruct (make_label_indexes_spec max_label indexes Hmax
              (sorted_lt_NoDup _ Hs) Hrange) as (t & Ht & _).
  exists max_label. eexists. split; [assumption|]. split; [assumption|].
  assert (Hsel : select maximum_position minimum_position self ws = Ok indexes).
  { unfold select. rewrite Hrom. destruct Hchoice as [->| ->]; assumption. }
  assert (Hrun : run maximum_position minimum_position self ws =
                 relabel self ws indexes)
    by (unfold run; rewrite Hsel; reflexivity).
  rewrite Hrun.
  rewrite (relabel_nonneg_total self ws _ max_label t Hm Ht Hmax Hall).
  split; [reflexivity|]. split.
  - apply length_fmap.
  - apply Forall_fmap, Forall_forall. intros names _. reflexivity.
Qed.

Lemma run_per_object_always_relabels_witness :
  let self := sample_module FI_MAXIMAL_PER_OBJECT [limits_group "Area" None None] [] in
  let ws := sample_workspace [[1; 1; 0]; [2; 0; 3]] [[1; 1; 1]; [2; 2; 2]]
              [Fin 10; Fin 50; Fin 30] [] [] in
  exists max_label outs,
    np.max (get_objects ws (object_name self)) = Ok max_label /\
    Forall (fun i => 1 <= i <= max_label) [1; 2] /\
    run sample_maximum_position sample_minimum_position self ws = Ok outs /\
    length outs = length (object_list self) /\
    Forall (fun out => fo_parent out = [1; 2]) outs.
Proof.
  intros self ws.
  apply (run_per_object_always_relabels
           sample_maximum_position sample_minimum_position self ws [1; 2]).
  - reflexivity.
  - right. reflexivity.
  - discriminate.
  - intros name _. unfold ws, sample_workspace. simpl.
    destruct (String.eqb name "Nuclei"); repeat constructor; lia.
  - reflexivity.
Defined.

(** X7. A raster without pixels stops every pass: whatever the strategy
    selected, [np.max] of the empty filtered raster raises [ValueError]
    before anything is relabeled. *)
Theorem run_without_pixels_raises
    (maximum_position minimum_position :
       list (list float64) -> raster -> list Z -> list (nat * nat))
    (self : FilterObjects) (ws : workspace) (indexes : list Z) :
  mjoin (get_objects ws (object_name self)) = [] ->
  select maximum_position minimum_position self ws = Ok indexes ->
  run maximum_position minimum_position self ws = Err ValueError.
Proof.
  intros Hempty Hsel. unfold run. rewrite Hsel. simpl.
  unfold relabel, np.max. rewrite Hempty. reflexivity.
Qed.

Lemma run_without_pixels_raises_witness :
  let self := sample_module FI_LIMITS [limits_group "Area" (Some (Fin 1)) None] [] in
  let ws := sample_workspace [[]; []] [] [] [] [] in
  run sample_maximum_position sample_minimum_position self ws = Err ValueError.
Proof.
  intros self ws.
  apply (run_without_pixels_raises sample_maximum_position sample_minimum_position
           self ws []).
  - reflexivity.
  - reflexivity.
Defined.

(** ** More on the range filter *)

Lemma sorted_lt_unique (l1 l2 : list Z) :
  StronglySorted Z.lt l1 -> StronglySorted Z.lt l2 ->
  (forall k, k ∈ l1 <-> k ∈ l2) -> l1 = l2.
Proof.
  intros H1 H2 Hmem. apply (StronglySorted_unique_strong Z.lt); try assumption.
  - intros x1 x2 _ _ Ha Hb. lia.
  - apply NoDup_Permutation; auto using sorted_lt_NoDup.
Qed.

Lemma sorted_lt_of_lookup (l : list Z) :
  (forall (i j : nat) a b, l !! i = Some a -> l !! j = Some b -> (i < j)%nat -> a < b) ->
  StronglySorted Z.lt l.
Proof.
  induction l as [|x l IH]; intros H; constructor.
  - apply IH. intros i j a b Hi Hj Hij. apply (H (S i) (S j)); auto. lia.
  - apply Forall_forall. intros y Hy. apply list_elem_of_lookup_1 in Hy as [j Hj].
    apply (H 0%nat (S j)); auto. lia.
Qed.

Lemma seqZ_sorted (m n : Z) : StronglySorted Z.lt (seqZ m n).
Proof.
  apply sorted_lt_of_lookup. intros i j a b Hi Hj Hij.
  apply lookup_seqZ in Hi as [-> _]. apply lookup_seqZ in Hj as [-> _]. lia.
Qed.

Lemma longest_Permutation (ws : workspace) (src_name : string)
    (groups groups' : list measurement_group) :
  groups ≡ₚ groups' -> longest ws src_name groups = longest ws src_name groups'.
Proof. induction 1; simpl; lia. Qed.

Lemma forallb_Permutation {A} (f : A -> bool) (l l' : list A) :
  l ≡ₚ l' -> forallb f l = forallb f l'.
Proof.
  induction 1 as [|x l l' _ IH|x y l|l l' l'' _ IH1 _ IH2]; simpl.
  - reflexivity.
  - rewrite IH. reflexivity.
  - destruct (f x), (f y); reflexivity.
  - congruence.
Qed.

(** X8. The order of the criteria does not matter to what is selected: two
    modules that filter the same objects with the same measurement groups in
    a different order select the same objects whenever both calls return;
    and when all the measurement vectors have one length the two calls
    agree altogether, in what they select as in the [IndexError] of a module
    without any group. *)
Theorem keep_within_limits_order_irrelevant (self1 self2 : FilterObjects)
    (ws : workspace) :
  object_name self1 = object_name self2 ->
  measurements self1 ≡ₚ measurements self2 ->
  (forall indexes1 indexes2,
     keep_within_limits self1 ws = Ok indexes1 ->
     keep_within_limits self2 ws = Ok indexes2 ->
     indexes1 = indexes2) /\
  (forall N : nat,
     Forall (fun group =>
               length (get_current_measurement ws (object_name self1)
                         (measurement group)) = N)
            (measurements self1) ->
     keep_within_limits self1 ws = keep_within_limits self2 ws).
Proof.
  intros Hname Hperm.
  assert (Hsame : forall indexes1 indexes2,
            keep_within_limits self1 ws = Ok indexes1 ->
            keep_within_limits self2 ws = Ok indexes2 ->
            indexes1 = indexes2).
  { intros l1 l2 H1 H2.
    apply keep_within_limits_Ok_inv in H1 as (Hs1 & _ & Hmem1).
    apply keep_within_limits_Ok_inv in H2 as (Hs2 & _ & Hmem2).
    apply sorted_lt_unique; try assumption.
    intros k. rewrite Hmem1, Hmem2, Hname.
    rewrite (longest_Permutation _ _ _ _ Hperm).
    rewrite (forallb_Permutation _ _ _ Hperm). reflexivity. }
  split; [assumption|]. intros N Hall.
  destruct (measurements self1) as [|first rest] eqn:Hm1.
  - apply Permutation_nil_l in Hperm.
    unfold keep_within_limits. rewrite Hm1, <- Hperm. reflexivity.
  - destruct (keep_within_limits_equal_lengths self1 ws N) as (l1 & Hl1).
    { rewrite Hm1. discriminate. }
    { rewrite Hm1. assumption. }
    destruct (keep_within_limits_equal_lengths self2 ws N) as (l2 & Hl2).
    { intros Hnil. rewrite Hnil in Hperm. apply Permutation_nil_r in Hperm.
      discriminate. }
    { rewrite <- Hname. rewrite Forall_forall in Hall |- *.
      intros group Hg. apply Hall. rewrite Hperm. assumption. }
    rewrite Hl1, Hl2. f_equal. eapply Hsame; eassumption.
Qed.

Lemma keep_within_limits_order_irrelevant_witness :
  let ws := sample_workspace [[1; 2; 3]] [] [Fin 5; Fin 15; Fin 25] [] [] in
  keep_within_limits
    (sample_module FI_LIMITS
       [limits_group "Area" (Some (Fin 10)) None;
        limits_group "Area" None (Some (Fin 20))] []) ws =
  keep_within_limits
    (sample_module FI_LIMITS
       [limits_group "Area" None (Some (Fin 20));
        limits_group "Area" (Some (Fin 10)) None] []) ws.
Proof.
  intros ws.
  refine (proj2 (keep_within_limits_order_irrelevant
                   (sample_module FI_LIMITS
                      [limits_group "Area" (Some (Fin 10)) None;
                       limits_group "Area" None (Some (Fin 20))] [])
                   (sample_module FI_LIMITS
                      [limits_group "Area" None (Some (Fin 20));
                       limits_group "Area" (Some (Fin 10)) None] [])
                   ws _ _) 3%nat _).
  - reflexivity.
  - apply perm_swap.
  - repeat constructor.
Defined.

(** X9. Groups without limits keep everything, or stop the module: when no
    group has its minimum or maximum switched on, the selection is every
    index from 1 to the length of the first group's vector, provided no
    later vector is longer than that one; when a later vector is longer,
    growing the hits to its length ([temp[~ hits] = False]) applies a mask
    of the old length to the new array and the call raises [IndexError]. *)
Theorem keep_within_limits_without_limits_keeps_all (self : FilterObjects)
    (ws : workspace) (first : measurement_group) (rest : list measurement_group) :
  measurements self = first :: rest ->
  Forall (fun group => wants_minimum group = false /\ wants_maximum group = false)
         (measurements self) ->
  let N := length (get_current_measurement ws (object_name self) (measurement first)) in
  (Forall (fun group =>
             (length (get_current_measurement ws (object_name self) (measurement group))
              <= N)%nat) rest ->
   keep_within_limits self ws = Ok (seqZ 1 (Z.of_nat N))) /\
  (Exists (fun group =>
             (N < length (get_current_measurement ws (object_name self)
                            (measurement group)))%nat) rest ->
   keep_within_limits self ws = Err IndexError).
Proof.
  intros Hm Hnone N. split.
  - intros Hle.
    destruct (keep_within_limits_returns self ws first rest Hm) as (l & Hl).
    { rewrite Hm in Hnone. inversion Hnone as [|? ? _ Hrest]; subst.
      rewrite Forall_forall in Hle, Hrest |- *. intros group Hg.
      right. split; [apply Hle; assumption|apply Hrest; assumption]. }
    rewrite Hl. f_equal.
    pose proof (keep_within_limits_first_is_longest self ws l first rest Hl Hm) as Hlong.
    apply keep_within_limits_Ok_inv in Hl as (Hs & _ & Hmem).
    apply sorted_lt_unique; [assumption|apply seqZ_sorted|].
    intros k. rewrite Hmem, Hlong, elem_of_seqZ, forallb_forall. fold N. split.
    + intros [Hk _]. lia.
    + intros Hk. split; [lia|]. intros group Hg. apply list_elem_of_In in Hg.
      rewrite Forall_forall in Hnone. destruct (Hnone group Hg) as [Hlo Hhi].
      unfold passes. rewrite Hlo, Hhi.
      destruct (_ !! _); reflexivity.
  - intros Hlonger. apply Exists_exists in Hlonger as (group & Hg & Hlen).
    destruct (keep_within_limits self ws) as [l|e] eqn:Hrun.
    + exfalso.
      apply keep_within_limits_Ok_inv in Hrun as (_ & (f & r & Hm' & Hfits) & _).
      rewrite Hm in Hm'. injection Hm' as <- <-.
      apply mask_fits_longest in Hfits.
      pose proof (longest_bounds ws (object_name self) rest group Hg). fold N in Hfits. lia.
    + apply keep_within_limits_Err in Hrun. congruence.
Qed.

Lemma keep_within_limits_without_limits_keeps_all_witness :
  let ws := sample_workspace [[1; 2; 3]] [] [Fin 5; NaN; Fin 25] [Fin 1; Fin 2] [] in
  keep_within_limits
    (sample_module FI_LIMITS
       [limits_group "Area" None None; limits_group "Intensity" None None] []) ws =
    Ok [1; 2; 3] /\
  keep_within_limits
    (sample_module FI_LIMITS
       [limits_group "Intensity" None None; limits_group "Area" None None] []) ws =
    Err IndexError.
Proof.
  intros ws. split.
  - refine (proj1 (keep_within_limits_without_limits_keeps_all
                     (sample_module FI_LIMITS
                        [limits_group "Area" None None;
                         limits_group "Intensity" None None] [])
                     ws _ _ eq_refl _) _).
    + repeat constructor.
    + repeat constructor.
  - refine (proj2 (keep_within_limits_without_limits_keeps_all
                     (sample_module FI_LIMITS
                        [limits_group "Intensity" None None;
                         limits_group "Area" None None] [])
                     ws _ _ eq_refl _) _).
    + repeat constructor.
    + apply Exists_cons_hd. simpl. lia.
Defined.

(** X10. The filter is conjunctive: a module with more measurement groups
    selects, among the indexes the fewer groups' vectors reach, only objects
    the module with fewer groups selects as well. *)
Theorem keep_within_limits_more_groups_select_less (self1 self2 : FilterObjects)
    (ws : workspace) (indexes1 indexes2 : list Z) :
  object_name self1 = object_name self2 ->
  (forall group, group ∈ measurements self1 -> group ∈ measurements self2) ->
  keep_within_limits self1 ws = Ok indexes1 ->
  keep_within_limits self2 ws = Ok indexes2 ->
  forall k,
    k ∈ indexes2 ->
    k <= Z.of_nat (longest ws (object_name self1) (measurements self1)) ->
    k ∈ indexes1.
Proof.
  intros Hname Hsub H1 H2 k Hk Hle.
  apply keep_within_limits_Ok_inv in H1 as (_ & _ & Hmem1).
  apply keep_within_limits_Ok_inv in H2 as (_ & _ & Hmem2).
  apply Hmem2 in Hk as [Hk Hall]. apply Hmem1. split; [lia|].
  rewrite forallb_forall in Hall |- *. intros group Hg.
  rewrite Hname. apply Hall. apply list_elem_of_In, Hsub, list_elem_of_In. assumption.
Qed.

Lemma keep_within_limits_more_groups_select_less_witness :
  let ws := sample_workspace [[1; 2; 3]] [] [Fin 5; Fin 15; Fin 25]
              [Fin 9; Fin 1; Fin 2] [] in
  2 ∈ [2; 3].
Proof.
  intros ws.
  apply (keep_within_limits_more_groups_select_less
           (sample_module FI_LIMITS [limits_group "Area" (Some (Fin 10)) None] [])
           (sample_module FI_LIMITS
              [limits_group "Intensity" None (Some (Fin 5));
               limits_group "Area" (Some (Fin 10)) None] [])
           ws [2; 3] [2; 3]).
  - reflexivity.
  - intros group Hg. apply list_elem_of_further. assumption.
  - reflexivity.
  - reflexivity.
  - apply list_elem_of_here.
  - simpl. lia.
Defined.

(** ** More on keep_per_object *)

Lemma length_remove_dups_le (l : list Z) : (length (remove_dups l) <= length l)%nat.
Proof.
  induction l as [|x l IH]; simpl; [lia|].
  destruct (decide_rel elem_of x l); simpl; lia.
Qed.

Lemma length_drop_background_le (l : list Z) :
  (length (drop_background l) <= length l)%nat.
Proof. destruct l as [|[| |] l]; simpl; lia. Qed.

(** X11. A measurement vector shorter than the labels of the filtered
    raster stops the per-object strategies: when the enclosing raster has a
    non-zero maximum and some pixel of the filtered raster holds a label
    greater than the number of measurement values, [keep_per_object] raises
    [IndexError] (from [tricky_values[src_labels]]). *)
Theorem keep_per_object_short_vector_raises
    (maximum_position minimum_position :
       list (list float64) -> raster -> list Z -> list (nat * nat))
    (self : FilterObjects) (ws : workspace) (group : measurement_group)
    (enclosing_max : Z) (r c : nat) (v : Z) :
  first_group self = Ok group ->
  np.max (get_objects ws (enclosing_object_name self)) = Ok enclosing_max ->
  enclosing_max <> 0 ->
  pixel (get_objects ws (object_name self)) r c = Ok v ->
  Z.of_nat (length (get_current_measurement ws (object_name self) (measurement group)))
    < v ->
  keep_per_object maximum_position minimum_position self ws = Err IndexError.
Proof.
  intros Hfirst Hmax Hne Hv Hlong. unfold keep_per_object.
  rewrite Hfirst. simpl. rewrite Hmax. simpl.
  replace (enclosing_max =? 0) with false by (symmetry; apply Z.eqb_neq; assumption).
  apply pixel_Ok in Hv as (row & Hr & Hc).
  unfold src_values.
  rewrite (take_fails NaN _ _ row v); [reflexivity| | |].
  - eapply list_elem_of_lookup_2. eassumption.
  - eapply list_elem_of_lookup_2. eassumption.
  - unfold in_range, tricky_values. simpl length. lia.
Qed.

Lemma keep_per_object_short_vector_raises_witness :
  keep_per_object sample_maximum_position sample_minimum_position
    (sample_module FI_MAXIMAL_PER_OBJECT [limits_group "Area" None None] [])
    (sample_workspace [[1; 1; 0]; [2; 0; 3]] [[1; 1; 1]; [2; 2; 2]]
       [Fin 10; Fin 50] [] [])
  = Err IndexError.
Proof.
  apply (keep_per_object_short_vector_raises
           sample_maximum_position sample_minimum_position
           (sample_module FI_MAXIMAL_PER_OBJECT [limits_group "Area" None None] [])
           (sample_workspace [[1; 1; 0]; [2; 0; 3]] [[1; 1; 1]; [2; 2; 2]]
              [Fin 10; Fin 50] [] [])
           (limits_group "Area" None None) 2 1 2 3).
  - reflexivity.
  - reflexivity.
  - discriminate.
  - reflexivity.
  - simpl. lia.
Defined.

(** X12. At most one object per enclosing object: when the position finders
    return one position per label asked for, a selection that
    [keep_per_object] returns has at most as many entries as the maximum
    label of the enclosing raster. *)
Theorem keep_per_object_at_most_one_per_enclosing
    (maximum_position minimum_position :
       list (list float64) -> raster -> list Z -> list (nat * nat))
    (self : FilterObjects) (ws : workspace) (indexes : list Z) (enclosing_max : Z) :
  (forall sv labels index, length (maximum_position sv labels index) = length index) ->
  (forall sv labels index, length (minimum_position sv labels index) = length index) ->
  np.max (get_objects ws (enclosing_object_name self)) = Ok enclosing_max ->
  keep_per_object maximum_position minimum_position self ws = Ok indexes ->
  Z.of_nat (length indexes) <= enclosing_max.
Proof.
  intros Hmaxp Hminp Hmax. unfold keep_per_object.
  destruct (first_group self) as [g|]; simpl; [|discriminate].
  rewrite Hmax. simpl.
  destruct (Z.eqb_spec enclosing_max 0) as [->|Hne].
  { intros [= <-]. simpl. lia. }
  destruct (src_values self ws g) as [sv|]; simpl; [|discriminate].
  match goal with |- context [(length ?bp =? 0)%nat] => set (best_pos := bp) end.
  assert (Hlen : length best_pos = Z.to_nat enclosing_max).
  { unfold best_pos. destruct (wants_max self);
      [rewrite Hmaxp|rewrite Hminp]; rewrite length_arange; lia. }
  destruct (Nat.eqb_spec (length best_pos) 0); [discriminate|].
  intros H. apply bind_Ok in H as (idxs & Hidxs & H). injection H as <-.
  apply mapM_Ok, Forall2_length in Hidxs.
  pose proof (length_drop_background_le (merge_sort Z.le (remove_dups idxs))) as H1.
  pose proof (Permutation_length (merge_sort_Permutation Z.le (remove_dups idxs))) as H2.
  pose proof (length_remove_dups_le idxs) as H3.
  lia.
Qed.

Lemma keep_per_object_at_most_one_per_enclosing_witness :
  Z.of_nat (length [1; 2]) <= 2.
Proof.
  apply (keep_per_object_at_most_one_per_enclosing
           sample_maximum_position sample_minimum_position
           (sample_module FI_MAXIMAL_PER_OBJECT [limits_group "Area" None None] [])
           (sample_workspace [[1; 1; 0]; [2; 0; 3]] [[1; 1; 1]; [2; 2; 2]]
              [Fin 10; Fin 50; Fin 30] [] [])).
  - intros sv labels index. apply length_fmap.
  - intros sv labels index. apply length_fmap.
  - reflexivity.
  - reflexivity.
Defined.

(** ** validate_module *)

Lemma validate_limits_Valid (groups : list measurement_group) :
  validate_limits groups = Valid <->
  Forall (fun group => wants_minimum group = true \/ wants_maximum group = true) groups.
Proof.
  induction groups as [|group groups IH]; simpl.
  - split; [constructor|reflexivity].
  - destruct (wants_minimum group) eqn:Hlo, (wants_maximum group) eqn:Hhi; simpl;
      rewrite ?IH, Forall_cons; rewrite ?Hlo, ?Hhi; try tauto.
    split; [discriminate|]. intros [[H|H] _]; discriminate.
Qed.

Lemma validate_limits_error (groups : list measurement_group)
    (message : string) (setting : validated_setting) :
  validate_limits groups = ValidationError message setting ->
  exists before group after,
    groups = (before ++ group :: after)%list /\
    setting = WantsMinimumOf group /\
    wants_minimum group = false /\ wants_maximum group = false /\
    Forall (fun g => wants_minimum g = true \/ wants_maximum g = true) before.
Proof.
  induction groups as [|group groups IH]; simpl; [discriminate|].
  destruct (wants_minimum group) eqn:Hlo, (wants_maximum group) eqn:Hhi; simpl.
  1-3: intros H; destruct (IH H) as (before & g & after & -> & Hs & Hg1 & Hg2 & Hb);
       exists (group :: before), g, after;
       (split; [reflexivity|]); repeat (split; [assumption|]);
       constructor; [rewrite Hlo, Hhi; tauto|assumption].
  intros [= <- <-]. exists [], group, groups. repeat split; auto.
Qed.

(** X13. What [validate_module] accepts. When filtering by rules it accepts
    exactly when the rules file can be read; when filtering by measurements
    it accepts unless the method is "Limits" and some group has neither its
    minimum nor its maximum switched on, and then the error points at the
    first such group; the other methods are never rejected. *)
Theorem validate_module_accepts (rules_failure : option string)
    (self : FilterObjects) :
  (validate_module rules_failure self = Valid <->
   match rules_or_measurement self with
   | ROM_RULES => rules_failure = None
   | ROM_MEASUREMENTS =>
       filter_choice self = FI_LIMITS ->
       Forall (fun group => wants_minimum group = true \/ wants_maximum group = true)
              (measurements self)
   end) /\
  (forall message setting,
     rules_or_measurement self = ROM_MEASUREMENTS ->
     validate_module rules_failure self = ValidationError message setting ->
     filter_choice self = FI_LIMITS /\
     exists before group after,
       measurements self = (before ++ group :: after)%list /\
       setting = WantsMinimumOf group /\
       wants_minimum group = false /\ wants_maximum group = false /\
       Forall (fun g => wants_minimum g = true \/ wants_maximum g = true) before).
Proof.
  unfold validate_module. split.
  - destruct (rules_or_measurement self).
    + destruct (filter_choice self), rules_failure; split; congruence.
    + destruct (filter_choice self); try (split; [intros _; discriminate|reflexivity]).
      destruct (validate_limits (measurements self)) eqn:Hv.
      * apply validate_limits_Valid in Hv. tauto.
      * split; [discriminate|]. intros H. specialize (H eq_refl).
        apply validate_limits_Valid in H. congruence.
  - intros message setting ->.
    destruct (filter_choice self); try discriminate.
    destruct (validate_limits (measurements self)) eqn:Hv; [discriminate|].
    intros [= <- <-]. split; [reflexivity|].
    eapply validate_limits_error. eassumption.
Qed.

(** ** Measurement names *)

Section measurement_name_facts.
Variable IMAGE : string.

(** X14. [get_measurements] and [get_categories] agree. Provided the
    filtered object set is not named like the image ([cpmeas.IMAGE]), the
    module reports measurements for an object name and a category exactly
    when it lists that category for that object name. *)
Theorem get_measurements_only_in_listed_categories (self : FilterObjects)
    (name category : string) :
  object_name self <> IMAGE ->
  get_measurements IMAGE self name category <> [] <->
  category ∈ get_categories IMAGE self name.
Proof.
  intros Hne. unfold get_measurements, get_categories.
  destruct (String.eqb_spec name IMAGE) as [Hi|Hi];
    destruct (String.eqb_spec name (object_name self)) as [Ho|Ho];
    destruct (String.eqb_spec name (target_name self)) as [Ht|Ht];
    try (exfalso; congruence);
    destruct (String.eqb_spec category "Count") as [Hc1|Hc1];
    destruct (String.eqb_spec category "Children") as [Hc2|Hc2];
    destruct (String.eqb_spec category "Location") as [Hc3|Hc3];
    destruct (String.eqb_spec category "Parent") as [Hc4|Hc4];
    destruct (String.eqb_spec category "Number") as [Hc5|Hc5];
    try (exfalso; congruence); simpl;
    rewrite ?elem_of_cons, ?elem_of_nil; intuition congruence.
Qed.

End measurement_name_facts.

(** X19. The Parent measurement is declared. The one measurement
    [get_measurements] reports for the target objects in the category
    "Parent" is the name of the filtered objects, and
    [get_measurement_columns] declares, for the target objects, the integer
    column named "Parent", "_" and that name. *)
Theorem parent_measurement_is_declared (IMAGE COLTYPE_INTEGER : string)
    (get_object_measurement_columns : string -> list (string * string * string))
    (self : FilterObjects) :
  get_measurements IMAGE self (target_name self) "Parent" = [object_name self] /\
  forall feature,
    feature ∈ get_measurements IMAGE self (target_name self) "Parent" ->
    (target_name self, String.concat "_" ["Parent"; feature], COLTYPE_INTEGER)
      ∈ get_measurement_columns COLTYPE_INTEGER get_object_measurement_columns self.
Proof.
  assert (Hm : get_measurements IMAGE self (target_name self) "Parent"
               = [object_name self]).
  { unfold get_measurements. rewrite String.eqb_refl, !andb_false_r. reflexivity. }
  split; [exact Hm|]. intros feature Hf. rewrite Hm in Hf.
  apply list_elem_of_singleton in Hf as ->.
  unfold get_measurement_columns, object_list. rewrite fmap_cons. simpl.
  apply list_elem_of_here.
Qed.

(** The proviso is needed: for filtered objects named like the image,
    "Children" has a measurement but is not a listed category. *)
Example image_named_objects_report_unlisted_children :
  let self := {| target_name := "Filtered"; object_name := "Image";
                 rules_or_measurement := ROM_MEASUREMENTS; filter_choice := FI_LIMITS;
                 enclosing_object_name := "None"; measurements := [];
                 additional_objects := [] |} in
  get_measurements "Image" self "Image" "Children" = ["Filtered_Count"] /\
  get_categories "Image" self "Image" = ["Count"].
Proof. split; reflexivity. Qed.

Lemma get_measurements_only_in_listed_categories_witness :
  get_measurements "Image" (sample_module FI_LIMITS [] []) "Nuclei" "Children" <> [] <->
  "Children" ∈ get_categories "Image" (sample_module FI_LIMITS [] []) "Nuclei".
Proof.
  apply (get_measurements_only_in_listed_categories "Image"
           (sample_module FI_LIMITS [] []) "Nuclei" "Children").
  discriminate.
Defined.

(** ** upgrade_settings *)

Lemma bind_Returns {A B} (m : outcome A) (f : A -> outcome B) (b : B) :
  m ≫= f = Returns b <-> exists a, m = Returns a /\ f a = Returns b.
Proof.
  destruct m as [a|e]; simpl; split.
  - intros H. exists a. auto.
  - intros (a' & Ha & Hf). congruence.
  - discriminate.
  - intros (a' & Ha & _). discriminate.
Qed.

Section upgrade_settings_facts.
Variables YES NO DO_NOT_USE : string.

Lemma upgrade_keep_largest_object_phase (st st' : upgrade_state) :
  upgrade_keep_largest_object YES NO st = Returns st' ->
  upgrade_pending 0 st -> upgrade_pending 1 st'.
Proof.
  unfold upgrade_keep_largest_object, upgrade_pending.
  destruct (String.eqb_spec (module_name st) "KeepLargestObject") as [Hn|Hn];
    destruct (from_matlab st) eqn:Hm;
    destruct (Z.eqb_spec (variable_revision_number st) 1) as [Hv|Hv]; simpl.
  2-8: intros [= <-]; rewrite ?Hm; intros H; simpl in *;
       intuition (try congruence; try lia).
  destruct (item (setting_values st) 1); simpl; [|discriminate].
  destruct (item (setting_values st) 2); simpl; [|discriminate].
  destruct (item (setting_values st) 0); simpl; [|discriminate].
  intros [= <-] _. simpl. right. split; [reflexivity|lia].
Qed.

Lemma upgrade_matlab_5_phase (st st' : upgrade_state) :
  upgrade_matlab_5 st = Returns st' ->
  upgrade_pending 1 st -> upgrade_pending 2 st'.
Proof.
  unfold upgrade_matlab_5, upgrade_pending.
  destruct (String.eqb_spec (module_name st) "FilterByObjectMeasurement") as [Hn|Hn];
    destruct (from_matlab st) eqn:Hm;
    destruct (Z.eqb_spec (variable_revision_number st) 5) as [Hv|Hv]; simpl.
  2-8: intros [= <-]; rewrite ?Hm; intros H; simpl in *;
       intuition (try congruence; try lia).
  destruct (item (setting_values st) 1); simpl; [|discriminate].
  destruct (item (setting_values st) 0); simpl; [|discriminate].
  intros [= <-] _. simpl. left. repeat split; auto; lia.
Qed.

Lemma upgrade_matlab_6_phase (st st' : upgrade_state) :
  upgrade_matlab_6 YES NO DO_NOT_USE st = Returns st' ->
  upgrade_pending 2 st -> upgrade_pending 3 st'.
Proof.
  unfold upgrade_matlab_6, upgrade_pending.
  destruct (String.eqb_spec (module_name st) "FilterByObjectMeasurement") as [Hn|Hn];
    destruct (from_matlab st) eqn:Hm;
    destruct (Z.eqb_spec (variable_revision_number st) 6) as [Hv|Hv]; simpl.
  2-8: intros [= <-]; rewrite ?Hm; intros H; simpl in *;
       intuition (try congruence; try lia).
  destruct (item (setting_values st) 2); simpl; [|discriminate].
  destruct (item (setting_values st) 3); simpl; [|discriminate].
  destruct (item (setting_values st) 6); simpl; [|discriminate].
  destruct (item (setting_values st) 7); simpl; [|discriminate].
  destruct (item (setting_values st) 8); simpl; [|discriminate].
  destruct (item (setting_values st) 0); simpl; [|discriminate].
  destruct (item (setting_values st) 1); simpl; [|discriminate].
  intros [= <-] _. simpl. right. split; [reflexivity|lia].
Qed.

Lemma upgrade_matlab_7_phase (st st' : upgrade_state) :
  upgrade_matlab_7 YES NO DO_NOT_USE st = Returns st' ->
  upgrade_pending 3 st -> upgrade_pending 4 st'.
Proof.
  unfold upgrade_matlab_7, upgrade_pending.
  destruct (String.eqb_spec (module_name st) "FilterByObjectMeasurement") as [Hn|Hn];
    destruct (from_matlab st) eqn:Hm;
    destruct (Z.eqb_spec (variable_revision_number st) 7) as [Hv|Hv]; simpl.
  2-8: intros [= <-]; rewrite ?Hm; intros H; simpl in *;
       intuition (try congruence; try lia).
  destruct (setting_values st) as [|s l]; [discriminate|].
  split_list l 10%nat. destruct l; [|discriminate].
  destruct (String.eqb s8 DO_NOT_USE); [discriminate|].
  intros [= <-] _. simpl. split; [reflexivity|lia].
Qed.

Lemma upgrade_1_phase (st st' : upgrade_state) :
  upgrade_1 st = Returns st' ->
  upgrade_pending 4 st -> upgrade_pending 5 st'.
Proof.
  unfold upgrade_1, upgrade_pending.
  destruct (from_matlab st) eqn:Hm;
    destruct (Z.eqb_spec (variable_revision_number st) 1) as [Hv|Hv]; simpl;
    intros [= <-]; simpl; rewrite ?Hm; intros [Hf Hr]; split; auto; lia.
Qed.

Lemma upgrade_2_phase (st st' : upgrade_state) :
  upgrade_2 st = Returns st' ->
  upgrade_pending 5 st -> upgrade_pending 6 st'.
Proof.
  unfold upgrade_2, upgrade_pending.
  destruct (from_matlab st) eqn:Hm;
    destruct (Z.eqb_spec (variable_revision_number st) 2) as [Hv|Hv]; simpl;
    intros [= <-]; simpl; rewrite ?Hm; intros [Hf Hr]; split; auto; lia.
Qed.

Lemma upgrade_3_phase (st st' : upgrade_state) :
  upgrade_3 st = Returns st' ->
  upgrade_pending 6 st -> upgrade_pending 7 st'.
Proof.
  unfold upgrade_3, upgrade_pending.
  destruct (from_matlab st) eqn:Hm;
    destruct (Z.eqb_spec (variable_revision_number st) 3) as [Hv|Hv]; simpl.
  1,2,4: intros [= <-]; simpl; rewrite ?Hm; intros [Hf Hr]; split; auto; lia.
  destruct (take 15 (setting_values st)) as [|s l]; [discriminate|].
  split_list l 14%nat. destruct l; [|discriminate].
  intros [= <-] _. simpl. split; [reflexivity|lia].
Qed.

(** Nothing fires on settings of the current revision. *)
Lemma upgrade_settings_current (values : list string) (name : string) :
  upgrade_settings YES NO DO_NOT_USE values 4 name false = Returns (values, 4, false).
Proof.
  unfold upgrade_settings, upgrade_keep_largest_object, upgrade_matlab_5,
    upgrade_matlab_6, upgrade_matlab_7, upgrade_1, upgrade_2, upgrade_3.
  repeat (progress (simpl; rewrite ?andb_false_r)). reflexivity.
Qed.

(** X15. Every pipeline [upgrade_settings] knows how to read ends at
    revision 4. For Matlab's KeepLargestObject (revision 1), Matlab's
    FilterByObjectMeasurement (revisions 5, 6, 7) and this module's own
    revisions 1 to 3: if the upgrade returns, it returns revision 4 with
    [from_matlab] off, and upgrading the returned settings again, under any
    module name, changes nothing. *)
Theorem upgrade_settings_reaches_revision_4 (values : list string) (revision : Z)
    (name : string) (matlab : bool) (values' : list string) (revision' : Z)
    (matlab' : bool) :
  (matlab = true /\
   ((name = "KeepLargestObject" /\ revision = 1) \/
    (name = "FilterByObjectMeasurement" /\ 5 <= revision <= 7))) \/
  (matlab = false /\ 1 <= revision <= 3) ->
  upgrade_settings YES NO DO_NOT_USE values revision name matlab =
    Returns (values', revision', matlab') ->
  revision' = 4 /\ matlab' = false /\
  forall name',
    upgrade_settings YES NO DO_NOT_USE values' revision' name' matlab' =
      Returns (values', revision', matlab').
Proof.
  intros Hknown Hrun. unfold upgrade_settings in Hrun.
  apply bind_Returns in Hrun as (st1 & H1 & Hrun).
  apply bind_Returns in Hrun as (st2 & H2 & Hrun).
  apply bind_Returns in Hrun as (st3 & H3 & Hrun).
  apply bind_Returns in Hrun as (st4 & H4 & Hrun).
  apply bind_Returns in Hrun as (st5 & H5 & Hrun).
  apply bind_Returns in Hrun as (st6 & H6 & Hrun).
  apply bind_Returns in Hrun as (st7 & H7 & Hrun).
  injection Hrun as <- <- <-.
  apply upgrade_keep_largest_object_phase in H1.
  2: { unfold upgrade_pending. simpl.
       destruct Hknown as [[-> [[-> ->]|[-> Hr]]]|[-> Hr]]; intuition lia. }
  apply upgrade_matlab_5_phase in H2; [|assumption].
  apply upgrade_matlab_6_phase in H3; [|assumption].
  apply upgrade_matlab_7_phase in H4; [|assumption].
  apply upgrade_1_phase in H5; [|assumption].
  apply upgrade_2_phase in H6; [|assumption].
  apply upgrade_3_phase in H7; [|assumption].
  unfold upgrade_pending in H7. simpl in H7. destruct H7 as [Hm Hv].
  assert (Hv4 : variable_revision_number st7 = 4) by lia.
  rewrite Hv4, Hm. repeat split. intros name'. apply upgrade_settings_current.
Qed.

(** X16. From this module's first revision. Settings of revision 1 with at
    least the 11 slots of that revision are rearranged into the revision-4
    layout: the measurement group moves behind the two counts, the rules
    settings get their defaults, the measurement count is "1", the count of
    additional objects is the number of remaining settings divided by 4, and
    the remaining settings follow unchanged; with fewer than 11 settings
    the upgrade raises [ValueError]. *)
Theorem upgrade_settings_from_revision_1 (name : string) :
  (forall target object measurement choice enclosing wants_min minimum
          wants_max maximum wants_outlines outlines_name additional,
     upgrade_settings YES NO DO_NOT_USE
       (target :: object :: measurement :: choice :: enclosing :: wants_min ::
        minimum :: wants_max :: maximum :: wants_outlines :: outlines_name ::
        additional) 1 name false =
     Returns
       (target :: object :: "Measurements" :: choice :: enclosing ::
        wants_outlines :: outlines_name :: "Default input folder" :: "." ::
        "rules.txt" :: "1" :: pretty (length additional / 4)%nat ::
        measurement :: wants_min :: minimum :: wants_max :: maximum ::
        additional, 4, false)) /\
  (forall values,
     (length values < 11)%nat ->
     upgrade_settings YES NO DO_NOT_USE values 1 name false =
       Raises UpgradeValueError).
Proof.
  split.
  - intros. unfold upgrade_settings, upgrade_keep_largest_object, upgrade_matlab_5,
      upgrade_matlab_6, upgrade_matlab_7.
    repeat (progress (simpl; rewrite ?andb_false_r)). reflexivity.
  - intros values Hlen.
    unfold upgrade_settings, upgrade_keep_largest_object, upgrade_matlab_5,
      upgrade_matlab_6, upgrade_matlab_7.
    repeat (progress (simpl; rewrite ?andb_false_r)).
    do 11 (destruct values as [|? values]; [reflexivity|]).
    simpl in Hlen. lia.
Qed.

(** X17. A Matlab revision-7 pipeline without a rules file cannot be
    upgraded: with the rules file name set to "Do not use" no branch assigns
    [rules_directory_choice], and building the new settings raises
    [UnboundLocalError]; with a rules file the upgrade returns revision-4
    settings that filter by rules. *)
Theorem upgrade_settings_matlab_7
    (target object category feature image scale min_value1 max_value1
       save_outlines rules_file_name rules_path_name : string) :
  let values := [target; object; category; feature; image; scale; min_value1;
                 max_value1; save_outlines; rules_file_name; rules_path_name] in
  (rules_file_name = DO_NOT_USE ->
   upgrade_settings YES NO DO_NOT_USE values 7 "FilterByObjectMeasurement" true =
     Raises UnboundLocalError) /\
  (rules_file_name <> DO_NOT_USE ->
   exists values',
     upgrade_settings YES NO DO_NOT_USE values 7 "FilterByObjectMeasurement" true =
       Returns (values', 4, false) /\
     length values' = 17%nat /\
     values' !! 2%nat = Some "Rules" /\
     values' !! 3%nat = Some "Limits" /\
     values' !! 9%nat = Some rules_file_name).
Proof.
  intros values. unfold values. split.
  - intros ->. unfold upgrade_settings. simpl.
    unfold upgrade_matlab_7. simpl. rewrite String.eqb_refl. reflexivity.
  - intros Hne. unfold upgrade_settings. simpl.
    unfold upgrade_matlab_7. simpl.
    apply String.eqb_neq in Hne. rewrite Hne. simpl.
    eexists. split; [reflexivity|]. repeat split.
Qed.

(** X18. What a Matlab KeepLargestObject module becomes: with its three
    settings [s0], [s1], [s2] (and whatever follows them), the upgrade
    returns revision-4 settings that keep, per object of [s0], the object
    with the maximal "AreaShape_Area", with both limits switched on at 0 and
    1, no outlines, one measurement and no additional object; with fewer
    than three settings it raises [IndexError]. *)
Theorem upgrade_settings_keep_largest_object :
  (forall s0 s1 s2 rest,
     upgrade_settings YES NO DO_NOT_USE (s0 :: s1 :: s2 :: rest) 1
       "KeepLargestObject" true =
     Returns
       ([s1; s2; "Measurements"; "Maximal per object"; s0; NO; "None";
         "Default input folder"; "."; "rules.txt"; "1"; "0"; "AreaShape_Area";
         YES; "0"; YES; "1"], 4, false)) /\
  (forall values,
     (length values < 3)%nat ->
     upgrade_settings YES NO DO_NOT_USE values 1 "KeepLargestObject" true =
       Raises UpgradeIndexError).
Proof.
  split.
  - intros. reflexivity.
  - intros values Hlen.
    do 3 (destruct values as [|? values]; [reflexivity|]).
    simpl in Hlen. lia.
Qed.

End upgrade_settings_facts.

Lemma upgrade_settings_reaches_revision_4_witness :
  upgrade_settings "Yes" "No" "Do not use"
    ["Big"; "Nuclei"; "Measurements"; "Maximal per object"; "Cells"; "No"; "None";
     "Default input folder"; "."; "rules.txt"; "1"; "0"; "AreaShape_Area";
     "Yes"; "0"; "Yes"; "1"] 4 "FilterObjects" false =
  Returns
    (["Big"; "Nuclei"; "Measurements"; "Maximal per object"; "Cells"; "No"; "None";
      "Default input folder"; "."; "rules.txt"; "1"; "0"; "AreaShape_Area";
      "Yes"; "0"; "Yes"; "1"], 4, false).
Proof.
  destruct (upgrade_settings_reaches_revision_4 "Yes" "No" "Do not use"
              ["Cells"; "Big"; "Nuclei"] 1 "KeepLargestObject" true
              ["Big"; "Nuclei"; "Measurements"; "Maximal per object"; "Cells"; "No";
               "None"; "Default input folder"; "."; "rules.txt"; "1"; "0";
               "AreaShape_Area"; "Yes"; "0"; "Yes"; "1"] 4 false)
    as (_ & _ & Hagain).
  - left. split; [reflexivity|]. left. split; reflexivity.
  - reflexivity.
  - apply Hagain.
Defined.

Lemma upgrade_settings_from_revision_1_witness :
  upgrade_settings "Yes" "No" "Do not use" ["FilteredBlue"; "Nuclei"] 1 "FilterObjects" false =
    Raises UpgradeValueError.
Proof.
  apply (upgrade_settings_from_revision_1 "Yes" "No" "Do not use" "FilterObjects").
  simpl. lia.
Defined.

Lemma upgrade_settings_matlab_7_witness :
  upgrade_settings "Yes" "No" "Do not use"
    ["Filtered"; "Nuclei"; "AreaShape"; "Area"; ""; ""; "10"; "No maximum";
     "Do not use"; "Do not use"; "."] 7 "FilterByObjectMeasurement" true =
  Raises UnboundLocalError.
Proof.
  apply (upgrade_settings_matlab_7 "Yes" "No" "Do not use"
           "Filtered" "Nuclei" "AreaShape" "Area" "" "" "10" "No maximum"
           "Do not use" "Do not use" ".").
  reflexivity.
Defined.

Lemma upgrade_settings_keep_largest_object_witness :
  upgrade_settings "Yes" "No" "Do not use" ["Cells"; "Big"] 1 "KeepLargestObject" true =
    Raises UpgradeIndexError.
Proof.
  apply (upgrade_settings_keep_largest_object "Yes" "No" "Do not use").
  simpl. lia.
Defined.
